(** * SMAZ for MicroPython: a shallow embedding of [smaz.py] and
    [smaz_multilang.py], and the properties of the codec.

    A Python [str] is a sequence of code points; it is modelled as a list
    of [N].  Positions and lengths are [nat].  A method that mutates the
    lists it is given returns their new contents.  A call either returns,
    raises, or (for the two [while] loops, which are given fuel) runs out
    of fuel; the theorems show that the last case never happens. *)

From Stdlib Require Import String Ascii NArith Lia.
From stdpp Require Import base option list gmap.

Local Open Scope nat_scope.

(** ** Python values *)

Module Py.

(** A one-character string is a code point. *)
Abbreviation char := N.

Abbreviation str := (list N).

Definition ord (c : char) : N := c.

Definition chr (n : nat) : char := N.of_nat n.

(** [text[i:j]] for [0 <= i]: the slice is clamped to the string. *)
Definition slice (text : str) (i j : nat) : str := take (j - i) (drop i text).

(** [range(0, stop, step)] *)
Definition range_step (stop step : nat) : list nat :=
  (fun k => k * step) <$> seq 0 ((stop + step - 1) / step).

(** [enumerate(l)] *)
Definition enumerate {A} (l : list A) : list (nat * A) := zip (seq 0 (length l)) l.

(** The exceptions of the two modules.  [ValueError_from msg e] is
    [ValueError(msg.format(str(e)))]. *)
Inductive exn :=
| IndexError
| ValueError (msg : string)
| ValueError_from (msg : string) (cause : exn).

Inductive outcome (A : Type) :=
| Returns (a : A)
| Raises (e : exn)
| OutOfFuel.

Arguments Returns {A} a.
Arguments Raises {A} e.
Arguments OutOfFuel {A}.

#[global] Instance outcome_ret : MRet outcome := fun A a => Returns a.

#[global] Instance outcome_bind : MBind outcome := fun A B k m =>
  match m with
  | Returns a => k a
  | Raises e => Raises e
  | OutOfFuel => OutOfFuel
  end.

(** A string literal of the source that holds printable ASCII only. *)
Definition s (x : string) : str := N_of_ascii <$> list_ascii_of_string x.

End Py.

Import Py.

(** ** The codec: the methods that [Smaz] and [SmazMultilang] share

    [_worst_size], [_flush_verbatim], the body of [compress] after the ASCII
    check, [_encapsulate] and [decompress] are the same text in both classes.
    [self] holds the class table [DECODE] and the [_lookup] dict made by
    [__init__]. *)

Record codec := Codec {
  DECODE : list str;
  _lookup : gmap str str
}.

Section Engine.

Variable self : codec.

Definition _worst_size (length : nat) : nat :=
  if length =? 0 then 0
  else if length =? 1 then 2
  else
    let full_chunks := length / 255 in
    let remainder := length mod 255 in
    let overhead := full_chunks * 2 + (if 0 <? remainder then 2 else 0) in
    length + overhead.

(** [_flush_verbatim(buffer, output)]: returns the two lists as the call
    leaves them. *)
Definition _flush_verbatim (buffer : list char) (output : list str)
  : list char * list str :=
  match buffer with
  | [] => (buffer, output)
  | b0 :: _ =>
      if length buffer =? 1 then
        ([], output ++ [[chr 254] ++ [b0]])
      else
        ([], (output ++ [[chr 255] ++ [chr (length buffer - 1)]]) ++ [buffer])
  end.

(** The [for match_len in range(min(7, max_len - pos), 0, -1)] loop, counting
    [match_len] down; it yields [(best_match, best_len)]. *)
Fixpoint find_match (text : str) (pos match_len : nat) : option str * nat :=
  match match_len with
  | 0 => (None, 0)
  | S shorter =>
      let substring := slice text pos (pos + match_len) in
      match _lookup self !! substring with
      | Some code => (Some code, match_len)
      | None => find_match text pos shorter
      end
  end.

(** [if best_match:] is true for a non-empty string. *)
Definition truthy (best_match : option str) : bool :=
  match best_match with
  | Some (_ :: _) => true
  | _ => false
  end.

Fixpoint compress_loop (fuel : nat) (text : str) (max_len pos : nat)
    (verbatim : list char) (output : list str)
  : outcome (list char * list str) :=
  if pos <? max_len then
    match fuel with
    | 0 => OutOfFuel
    | S fuel =>
        let '(best_match, best_len) :=
          find_match text pos (min 7 (max_len - pos)) in
        if truthy best_match then
          let '(verbatim, output) := _flush_verbatim verbatim output in
          let output := output ++ [default [] best_match] in
          compress_loop fuel text max_len (pos + best_len) verbatim output
        else
          match text !! pos with
          | None => Raises IndexError
          | Some ch =>
              let verbatim := verbatim ++ [ch] in
              let pos := pos + 1 in
              if length verbatim =? 255 then
                let '(verbatim, output) := _flush_verbatim verbatim output in
                compress_loop fuel text max_len pos verbatim output
              else
                compress_loop fuel text max_len pos verbatim output
          end
    end
  else Returns (verbatim, output).

Fixpoint encapsulate_loop (text : str) (starts : list nat) (output : list str)
  : list str :=
  match starts with
  | [] => output
  | i :: starts =>
      let chunk := slice text i (i + 255) in
      if length chunk =? 1 then
        encapsulate_loop text starts (output ++ [[chr 254] ++ chunk])
      else
        encapsulate_loop text starts
          ((output ++ [[chr 255] ++ [chr (length chunk - 1)]]) ++ [chunk])
  end.

Definition _encapsulate (text : str) : str :=
  match text with
  | [] => text
  | _ => concat (encapsulate_loop text (range_step (length text) 255) [])
  end.

(** [compress] from [output = []] on. *)
Definition compress_tokens (text : str) : outcome (list str) :=
  let max_len := length text in
  '(verbatim, output) ← compress_loop max_len text max_len 0 [] [];
  let '(verbatim, output) := _flush_verbatim verbatim output in
  mret output.

Definition compress_body (text : str) : outcome str :=
  output ← compress_tokens text;
  let result := concat output in
  if _worst_size (length text) <? length result then
    mret (_encapsulate text)
  else
    mret result.

Fixpoint decompress_loop (fuel : nat) (compressed : str) (max_len pos : nat)
    (output : list str) : outcome (list str) :=
  if pos <? max_len then
    match fuel with
    | 0 => OutOfFuel
    | S fuel =>
        match compressed !! pos with
        | None => Raises IndexError
        | Some c =>
            let ch := ord c in
            let pos := pos + 1 in
            if (ch <? 254)%N then
              match DECODE self !! N.to_nat ch with
              | None => Raises IndexError
              | Some entry =>
                  decompress_loop fuel compressed max_len pos (output ++ [entry])
              end
            else
              match compressed !! pos with
              | None => Raises IndexError
              | Some next_byte =>
                  let pos := pos + 1 in
                  if (ch =? 254)%N then
                    decompress_loop fuel compressed max_len pos
                      (output ++ [[next_byte]])
                  else
                    let end_pos := pos + N.to_nat (ord next_byte) + 1 in
                    if max_len <? end_pos then
                      Raises (ValueError "Desbordamiento de buffer")
                    else
                      decompress_loop fuel compressed max_len end_pos
                        (output ++ [slice compressed pos end_pos])
              end
        end
    end
  else Returns output.

(** [except (IndexError, ValueError) as e] catches every exception of the
    model. *)
Definition decompress (compressed : str) : outcome str :=
  match compressed with
  | [] => Returns compressed
  | _ =>
      let max_len := length compressed in
      match decompress_loop max_len compressed max_len 0 [] with
      | Returns output => Returns (concat output)
      | Raises e => Raises (ValueError_from "Error de descompresión: {}" e)
      | OutOfFuel => OutOfFuel
      end
  end.

End Engine.

(** ** [smaz.py] *)

Module Smaz.

Local Open Scope N_scope.

Definition DECODE : list str := [
  s " "; s "the"; s "e"; s "t"; s "a"; s "of"; s "o"; s "and"; s "i"; s "n";
  s "s"; s "e "; s "r"; s " th"; s " t"; s "in"; s "he"; s "th"; s "h";
  s "he "; s "to"; [13; 10]; s "l"; s "s "; s "d"; s " a"; s "an"; s "er";
  s "c"; s " o"; s "d "; s "on"; s " of"; s "re"; s "of "; s "t "; s ", ";
  s "is"; s "u"; s "at"; s "   "; s "n "; s "or"; s "which"; s "f"; s "m";
  s "as"; s "it"; s "that"; [10]; s "was"; s "en"; s "  "; s " w"; s "es";
  s " an"; s " i"; [13]; s "f "; s "g"; s "p"; s "nd"; s " s"; s "nd ";
  s "ed "; s "w"; s "ed"; s "http://"; s "for"; s "te"; s "ing"; s "y ";
  s "The"; s " c"; s "ti"; s "r "; s "his"; s "st"; s " in"; s "ar"; s "nt";
  s ","; s " to"; s "y"; s "ng"; s " h"; s "with"; s "le"; s "al"; s "to ";
  s "b"; s "ou"; s "be"; s "were"; s " b"; s "se"; s "o "; s "ent"; s "ha";
  s "ng "; s "their"; [34]; s "hi"; s "from"; s " f"; s "in "; s "de";
  s "ion"; s "me"; s "v"; s "."; s "ve"; s "all"; s "re "; s "ri"; s "ro";
  s "is "; s "co"; s "f t"; s "are"; s "ea"; s ". "; s "her"; s " m";
  s "er "; s " p"; s "es "; s "by"; s "they"; s "di"; s "ra"; s "ic";
  s "not"; s "s, "; s "d t"; s "at "; s "ce"; s "la"; s "h "; s "ne";
  s "as "; s "tio"; s "on "; s "n t"; s "io"; s "we"; s " a "; s "om";
  s ", a"; s "s o"; s "ur"; s "li"; s "ll"; s "ch"; s "had"; s "this";
  s "e t"; s "g "; [101; 13; 10]; s " wh"; s "ere"; s " co"; s "e o"; s "a ";
  s "us"; s " d"; s "ss"; [10; 13; 10]; [13; 10; 13]; [61; 34]; s " be";
  s " e"; s "s a"; s "ma"; s "one"; s "t t"; s "or "; s "but"; s "el";
  s "so"; s "l "; s "e s"; s "s,"; s "no"; s "ter"; s " wa"; s "iv"; s "ho";
  s "e a"; s " r"; s "hat"; s "s t"; s "ns"; s "ch "; s "wh"; s "tr"; s "ut";
  s "/"; s "have"; s "ly "; s "ta"; s " ha"; s " on"; s "tha"; s "-"; s " l";
  s "ati"; s "en "; s "pe"; s " re"; s "there"; s "ass"; s "si"; s " fo";
  s "wa"; s "ec"; s "our"; s "who"; s "its"; s "z"; s "fo"; s "rs"; s ">";
  s "ot"; s "un"; s "<"; s "im"; s "th "; s "nc"; s "ate"; s "><"; s "ver";
  s "ad"; s " we"; s "ly"; s "ee"; s " n"; s "id"; s " cl"; s "ac"; s "il";
  s "</"; s "rt"; s " wi"; s "div"; s "e, "; s " it"; s "whi"; s " ma";
  s "ge"; s "x"; s "e c"; s "men"; s ".com"
].

Local Close Scope N_scope.

(** [_create_lookup]: later entries overwrite earlier ones.  ([chr] is
    defined up to 0x10FFFF; a table is far shorter.) *)
Fixpoint create_lookup_loop (items : list (nat * str)) (lookup : gmap str str)
  : gmap str str :=
  match items with
  | [] => lookup
  | (enc_byte, text) :: items =>
      create_lookup_loop items (<[text := [chr enc_byte]]> lookup)
  end.

Definition _create_lookup (DECODE : list str) : gmap str str :=
  create_lookup_loop (enumerate DECODE) ∅.

(** [Smaz()] for a class whose table is [DECODE]. *)
Definition init (DECODE : list str) : codec :=
  Codec DECODE (_create_lookup DECODE).

Fixpoint _is_ascii (text : str) : bool :=
  match text with
  | [] => true
  | ch :: text => if (128 <=? ord ch)%N then false else _is_ascii text
  end.

Definition compress (self : codec) (text : str) (check_ascii : bool)
  : outcome str :=
  match text with
  | [] => Returns text
  | _ =>
      if check_ascii && negb (_is_ascii text) then
        Raises (ValueError "SMAZ solo procesa texto ASCII")
      else compress_body self text
  end.

(** [get_instance()] *)
Definition instance : codec := init DECODE.

End Smaz.

(** ** [smaz_multilang.py] *)

Module SmazMultilang.

Local Open Scope N_scope.

Definition DECODE : list str := [
  s " "; s "e"; s "a"; s "o"; s "n"; s "i"; s "s"; s "r"; s "l"; s "t";
  s "d"; s "c"; s "m"; s "u"; s "p"; s "b"; s "g"; s "v"; s "f"; s "y";
  s "h"; s "j"; s "k"; s "w"; s "z"; s "x"; s "q"; s "en"; s "es"; s "de";
  s "la"; s "el"; s "ar"; s "on"; s "in"; s "or"; s "er"; s "an"; s "te";
  s "ra"; s "al"; s "st"; s "nt"; s "to"; s "re"; s "ll"; s "co"; s "le";
  s "se"; s "os"; s "as"; s "ta"; s "nd"; s "me"; s "lo"; s "ro"; s "po";
  s "qu"; s "di"; s "ca"; s "si"; s "ti"; s "li"; s "do"; s "tr"; s "ma";
  s "ch"; s "ue"; s "ci"; s "pr"; s "pa"; s "ri"; s "su"; s "mi"; s "mo";
  s "un"; s "ha"; s "no"; s "ya"; s "que"; s "con"; s "los"; s "las";
  s "por"; s "una"; s "para"; s "del"; [101; 115; 116; 225]; s "pero";
  [109; 225; 115]; s "como"; s "bien"; s "todo"; s "esta"; s "cada";
  s "sobre"; s "entre"; s "muy"; s "hay"; s "debe"; [97; 115; 237]; s "poco";
  s "algo"; s "solo"; [99; 105; 243; 110]; s "mente"; s "dad"; s "ado";
  s "ido"; s "ando"; s "the"; s "and"; s "ing"; s "of"; s "to"; s "is";
  s "that"; s "for"; s "you"; s "not"; s "with"; s "this"; s "are"; s "have";
  s "be"; s "they"; s "from"; s "at"; s "one"; s "all"; s "by"; s "was";
  s "were"; s "what"; s "when"; s "how"; s "tion"; s "able"; s "ive"; s "ed";
  s "ly"; s "et"; s "dans"; s "pour"; s "les"; s "des"; s "est"; s "che";
  s "per"; s "non"; s "sono"; s "uma"; s "das"; s "der"; s "das"; s "und";
  s "ist"; s "den"; s "ein"; s "qui"; s "par"; s "dans"; s "com"; s "ne";
  s "au"; [231; 97]; s "ce"; s "je"; s "tu"; s "il"; s "da"; s "na"; s "em";
  s "vor"; s "nach"; s "bei"; s "zum"; [225]; [233]; [237]; [243]; [250];
  [252]; [241]; [231]; [227]; [245]; [226]; [234]; [238]; [244]; [251];
  [224]; [232]; [236]; [242]; [249]; [228]; [235]; [239]; [246]; [252];
  [223]; s "."; s ","; s ":"; s ";"; s "?"; s "!"; s "("; s ")"; s "-";
  s "/"; s "'"; [34]; [10]; [13]; [13; 10]; s "0"; s "1"; s "2"; s "3";
  s "4"; s "5"; s "6"; s "7"; s "8"; s "9"; s "10"; s "20"; s "30"; s "00";
  s "http://"; s "https://"; s ".com"; s ".org"; s ".net"; s ".io"; s "www.";
  s "@"; s "&"; s "%"; s "+"; s "="; s "#"; s "*"; s "$"; [8364]; [163];
  s "<"; s ">"; s "["; s "]"; s "{"; s "}"; s "_"; s "|"; [92]; s "ok";
  s "hi"; s "hello"; s "yes"; s "no"; s "hola"; s "gracias"; s "info";
  s "help"; s "error"; s "user"; s "name"; s "email"; s "password";
  s "login"; s "file"; s "menu"; s "home"; s "date"; s "time"; s "day";
  s "month"; s "year"; s "2024"; s "2025"; s "jan"; s "feb"; s "mar";
  s "apr"; s "may"; s "jun"; s "jul"; s "aug"; s "sep"; s "oct"; s "nov";
  s "dec"; s "mon"; s "tue"; s "wed"; s "thu"; s "fri"; s "sat"; s "sun";
  [191]; [161]; [171]; [187]; [8222]; s ", "; [8218]; s "'"; s "'"; [8249];
  [8250]; [8211]; [8212]; [8230]
].

Local Close Scope N_scope.

(** [_create_lookup]: stops at the first index that is 254 or more. *)
Fixpoint create_lookup_loop (items : list (nat * str)) (lookup : gmap str str)
  : gmap str str :=
  match items with
  | [] => lookup
  | (enc_byte, text) :: items =>
      if 254 <=? enc_byte then lookup
      else create_lookup_loop items (<[text := [chr enc_byte]]> lookup)
  end.

Definition _create_lookup (DECODE : list str) : gmap str str :=
  create_lookup_loop (enumerate DECODE) ∅.

Definition init (DECODE : list str) : codec :=
  Codec DECODE (_create_lookup DECODE).

(** [for ch in text: if ord(ch) >= 128: raise ValueError(...)] *)
Fixpoint check_ascii_loop (text : str) : outcome unit :=
  match text with
  | [] => Returns tt
  | ch :: text =>
      if (128 <=? ord ch)%N then
        Raises (ValueError "SMAZ con verificación ASCII solo procesa texto ASCII")
      else check_ascii_loop text
  end.

Definition compress (self : codec) (text : str) (check_ascii : bool)
  : outcome str :=
  match text with
  | [] => Returns text
  | _ =>
      _ ← (if check_ascii then check_ascii_loop text else Returns tt);
      compress_body self text
  end.

Definition instance : codec := init DECODE.

End SmazMultilang.


(** ** The wire format, token by token

    A token is what one iteration of the decoder consumes: a dictionary
    index, a single literal, or a literal run.  [controls] are the positions
    the decoder interprets, [payload] the verbatim characters that follow. *)

Inductive token :=
| Entry (i : nat)
| Literal (b : char)
| Run (data : list char).

Definition controls (tk : token) : str :=
  match tk with
  | Entry i => [chr i]
  | Literal _ => [chr 254]
  | Run data => [chr 255; chr (length data - 1)]
  end.

Definition payload (tk : token) : str :=
  match tk with
  | Entry _ => []
  | Literal b => [b]
  | Run data => data
  end.

Definition wire (tk : token) : str := controls tk ++ payload tk.

Definition wire_all (tokens : list token) : str := concat (wire <$> tokens).

(** The text a token stands for. *)
Definition text_of (self : codec) (tk : token) : str :=
  match tk with
  | Entry i => default [] (DECODE self !! i)
  | Literal b => [b]
  | Run data => data
  end.

Definition text_of_all (self : codec) (tokens : list token) : str :=
  concat (text_of self <$> tokens).

(** The tokens the encoder writes: an index is the [_lookup] value of a
    window of one to seven characters, a run has 2 to 255 characters. *)
Definition emitted (self : codec) (tk : token) : Prop :=
  match tk with
  | Entry i =>
      exists sub, _lookup self !! sub = Some [chr i] /\
                  DECODE self !! i = Some sub /\
                  i < 254 /\ 1 <= length sub <= 7
  | Literal _ => True
  | Run data => 2 <= length data <= 255
  end.

Definition is_Entry (tk : token) : bool :=
  match tk with
  | Entry _ => true
  | _ => false
  end.

(** The tokens the decoder accepts in a stream of bytes: an index below 254
    that [DECODE] holds, a literal, a run of 1 to 256 characters. *)
Definition decodable (self : codec) (tk : token) : Prop :=
  match tk with
  | Entry i => i < 254 /\ is_Some (DECODE self !! i)
  | Literal _ => True
  | Run data => 1 <= length data <= 256
  end.

(** A stream of bytes. *)
Definition bytes (c : str) : Prop := Forall (fun ch => (ch <= 255)%N) c.

(** What the caller of [decompress] sees when the stream is rejected. *)
Definition decode_error (self : codec) (c : str) : Prop :=
  exists cause,
    decompress self c = Raises (ValueError_from "Error de descompresión: {}" cause).

(** A text in which no window of one to seven characters is a key. *)
Definition matchless (self : codec) (text : str) : Prop :=
  forall pos n, 1 <= n <= 7 -> _lookup self !! slice text pos (pos + n) = None.

(** The token that a flush of [buffer] writes, if any. *)
Definition flush_tokens (buffer : list char) : list token :=
  match buffer with
  | [] => []
  | [b] => [Literal b]
  | _ => [Run buffer]
  end.

(** The token that [_encapsulate] writes for one chunk. *)
Definition chunk_token (chunk : str) : token :=
  match chunk with
  | [b] => Literal b
  | _ => Run chunk
  end.

(** The tokens that [_encapsulate] writes for the chunks at [starts]. *)
Definition chunk_tokens (text : str) (starts : list nat) : list token :=
  (fun i => chunk_token (slice text i (i + 255))) <$> starts.

(** Every value of [_lookup] is [chr(i)] for an index [i] below 254 at which
    [DECODE] holds the key. *)
Definition lookup_sound (self : codec) : Prop :=
  forall sub code, _lookup self !! sub = Some code ->
    exists i, code = [chr i] /\ i < 254 /\ DECODE self !! i = Some sub.

(** The loop of [decompress] started with the fuel that covers the rest of
    the stream. *)
Definition decode_from (self : codec) (compressed : str) (pos : nat)
    (output : list str) : outcome (list str) :=
  decompress_loop self (length compressed - pos) compressed (length compressed)
    pos output.

(** No window of one to [min(7, remaining)] characters at [pos] is a key. *)
Definition unmatched (self : codec) (text : str) (pos : nat) : Prop :=
  forall n, 1 <= n <= min 7 (length text - pos) ->
    _lookup self !! slice text pos (pos + n) = None.

(** The window of [n] characters at [pos] is the longest one, of at most
    [min(7, remaining)] characters, that is a key; [code] is its value. *)
Definition longest_match (self : codec) (text : str) (pos n : nat) (code : str)
  : Prop :=
  1 <= n <= min 7 (length text - pos) /\
  _lookup self !! slice text pos (pos + n) = Some code /\
  forall n', n < n' <= min 7 (length text - pos) ->
    _lookup self !! slice text pos (pos + n') = None.

(** A token that a greedy encoder may write at [pos]: an index only for the
    longest match there, literal characters only where nothing matches. *)
Definition token_greedy (self : codec) (text : str) (pos : nat) (tk : token)
  : Prop :=
  match tk with
  | Entry i => longest_match self text pos (length (text_of self tk)) [chr i]
  | _ => forall k, k < length (text_of self tk) -> unmatched self text (pos + k)
  end.

(** Tokens that are greedy one after the other, starting at [pos]. *)
Fixpoint greedy_at (self : codec) (text : str) (pos : nat)
    (tokens : list token) : Prop :=
  match tokens with
  | [] => True
  | tk :: tokens =>
      token_greedy self text pos tk /\
      greedy_at self text (pos + length (text_of self tk)) tokens
  end.

(** The bound as the specification words it. *)
Definition worstCaseSize (n : nat) : nat :=
  match n with
  | 0 => 0
  | 1 => 2
  | _ => n + 2 * (n / 255) + (if n mod 255 =? 0 then 0 else 2)
  end.

(** ASCII text: what [compress] accepts when [check_ascii] is set. *)
Definition ascii_text (text : str) : Prop := Forall (fun ch => (ord ch < 128)%N) text.

Definition accepted (check_ascii : bool) (text : str) : Prop :=
  check_ascii = true -> ascii_text text.

(** ** The module-level functions and the test scripts

    Each module keeps one shared instance in a global that starts as [None];
    a function that reads or sets the global takes its value and returns the
    new one. *)

Module smaz_py.

(** [get_instance()] of [smaz.py]; the argument is [_smaz_instance]. *)
Definition get_instance (_smaz_instance : option codec) : codec * option codec :=
  match _smaz_instance with
  | None =>
      let _smaz_instance := Smaz.init Smaz.DECODE in
      (_smaz_instance, Some _smaz_instance)
  | Some shared => (shared, _smaz_instance)
  end.

Definition compress (_smaz_instance : option codec) (text : str)
    (check_ascii : bool) : outcome str * option codec :=
  let '(shared, _smaz_instance) := get_instance _smaz_instance in
  (Smaz.compress shared text check_ascii, _smaz_instance).

Definition decompress (_smaz_instance : option codec) (compressed : str)
  : outcome str * option codec :=
  let '(shared, _smaz_instance) := get_instance _smaz_instance in
  (decompress shared compressed, _smaz_instance).

End smaz_py.

(** What the test loops print, line by line.  A line holds the values that
    its format string is filled with; the formatting itself (hexadecimal
    escapes, two decimals of the ratio) is not modelled. *)
Module Script.

(** What [except Exception as e] can catch in the loops. *)
Inductive raised :=
| Codec_error (e : exn)
| ZeroDivisionError.

Inductive line :=
| Original (bytes : nat) (text : str)
| Comprimido (bytes : nat) (compressed : str)
| Descomprimido (decompressed : str)
| Ratio (compressed_len text_len : nat)
| Blank
| Mismatch
| Error_con_cadena (text : str) (e : raised).

(** Neither the [ERROR] line nor the [Error con cadena] line. *)
Definition quiet (l : line) : bool :=
  match l with
  | Mismatch | Error_con_cadena _ _ => false
  | _ => true
  end.

End Script.

Import Script.

Module smaz_multilang_py.

Definition get_instance (_smaz_multilang_instance : option codec)
  : codec * option codec :=
  match _smaz_multilang_instance with
  | None =>
      let _smaz_multilang_instance := SmazMultilang.init SmazMultilang.DECODE in
      (_smaz_multilang_instance, Some _smaz_multilang_instance)
  | Some shared => (shared, _smaz_multilang_instance)
  end.

Local Open Scope N_scope.

Definition test_strings : list str := [
  s "This is a small string";
  s "Hello World!";
  s "Hola Mundo!";
  s "Esto es una peque" ++ [241] ++ s "a cadena de prueba";
  s "El r" ++ [225] ++ s "pido zorro marr" ++ [243] ++ s "n salta sobre el perro perezoso";
  s "Bonjour le monde!";
  s "C'est une petite cha" ++ [238] ++ s "ne de test";
  s "Hallo Welt!";
  s "Dies ist ein kleiner Teststring";
  s "Ciao mondo!";
  s "Questa " ++ [232] ++ s " una piccola stringa di prova";
  s "Ol" ++ [225] ++ s " mundo!";
  s "Esta " ++ [233] ++ s " uma pequena cadeia de teste";
  s "Hello/Hola/Bonjour/Ciao/Hallo/Ol" ++ [225] ++ s " - 2024";
  s "http://www.example.com";
  s "A veces, una palabra escrita a tiempo vale m" ++ [225] ++ s "s que mil pensamientos no dichos. " ++ [10] ++ s "        Hoy es un buen d" ++ [237] ++ s "a para comenzar algo nuevo."
].

Local Close Scope N_scope.




(** The convenience functions [compress] and [decompress] of the module. *)
Definition compress (_smaz_multilang_instance : option codec) (text : str)
    (check_ascii : bool) : outcome str * option codec :=
  let '(shared, _smaz_multilang_instance) :=
    get_instance _smaz_multilang_instance in
  (SmazMultilang.compress shared text check_ascii, _smaz_multilang_instance).

Definition decompress (_smaz_multilang_instance : option codec)
    (compressed : str) : outcome str * option codec :=
  let '(shared, _smaz_multilang_instance) :=
    get_instance _smaz_multilang_instance in
  (decompress shared compressed, _smaz_multilang_instance).

End smaz_multilang_py.

(** [main_test.py] *)
Module main_test.

(** [SZ = sz()], in a module that is freshly imported. *)
Definition SZ : codec := (smaz_py.get_instance None).1.

Definition test_strings : list str := [
  s "This is a small string";
  s "foobar";
  s "the end";
  s "Hello World!";
  s "http://micropython.org";
  s "A veces, una palabra escrita a tiempo vale mas que mil pensamientos no dichos. Hoy es un buen dia para comenzar algo nuevo, aunque sea con solo una linea."
].

Definition body (s : str) : option (list line) :=
  match Smaz.compress SZ s true with
  | OutOfFuel => None
  | Raises e => Some [Error_con_cadena s (Codec_error e)]
  | Returns compressed =>
      match decompress SZ compressed with
      | OutOfFuel => None
      | Raises e => Some [Error_con_cadena s (Codec_error e)]
      | Returns decompressed =>
          let printed :=
            [Original (length s) s;
             Comprimido (length compressed) compressed;
             Descomprimido decompressed] in
          if length s =? 0 then
            Some (printed ++ [Error_con_cadena s ZeroDivisionError])
          else
            Some (printed ++ [Ratio (length compressed) (length s); Blank]
                    ++ (if bool_decide (decompressed <> s) then [Mismatch]
                        else []))
      end
  end.

Fixpoint loop (strings : list str) : option (list line) :=
  match strings with
  | [] => Some []
  | s :: strings =>
      printed ← body s;
      more ← loop strings;
      Some (printed ++ more)
  end.

(** The script. *)
Definition main : option (list line) := loop test_strings.

End main_test.

(** * Properties *)

(** ** Arithmetic of the bound *)

(** The quotient and remainder of [n] by 255, for [lia]. *)
Ltac div255 n :=
  pose proof (Nat.div_mod_eq n 255);
  pose proof (Nat.mod_upper_bound n 255 ltac:(lia)).

Lemma worst_size_spec n : _worst_size n = worstCaseSize n.
Proof.
  unfold _worst_size, worstCaseSize.
  destruct n as [|[|n]]; [done..|].
  change (S (S n) =? 0) with false. change (S (S n) =? 1) with false.
  cbv iota.
  destruct (Nat.eqb_spec (S (S n) mod 255) 0) as [->|Hr]; [simpl; lia|].
  destruct (Nat.ltb_spec 0 (S (S n) mod 255)); lia.
Qed.

Lemma worst_size_chunks n :
  2 <= n -> _worst_size n = n + 2 * ((n + 254) / 255).
Proof.
  intros Hn. unfold _worst_size.
  destruct (Nat.eqb_spec n 0); [lia|]. destruct (Nat.eqb_spec n 1); [lia|].
  cbv zeta.
  div255 n. div255 (n + 254).
  destruct (Nat.ltb_spec 0 (n mod 255)); lia.
Qed.

(** ** The reverse lookup built by [_create_lookup] *)

Section Lookup.

Implicit Types (l : list str) (lookup : gmap str str) (sub code : str).

Lemma lookup_loop_step x l k lookup :
  SmazMultilang.create_lookup_loop (zip (seq k (length (x :: l))) (x :: l)) lookup
  = if 254 <=? k then lookup
    else SmazMultilang.create_lookup_loop (zip (seq (S k) (length l)) l)
           (<[x := [chr k]]> lookup).
Proof. reflexivity. Qed.

(** Below 254 entries the loop of [smaz.py] is the guarded loop. *)
Lemma Smaz_loop_guarded l k lookup :
  k + length l <= 254 ->
  Smaz.create_lookup_loop (zip (seq k (length l)) l) lookup
  = SmazMultilang.create_lookup_loop (zip (seq k (length l)) l) lookup.
Proof.
  revert k lookup. induction l as [|x l IH]; intros k lookup Hk; [done|].
  rewrite lookup_loop_step. cbn [length] in Hk.
  destruct (Nat.leb_spec 254 k); [lia|].
  cbn [length seq zip zip_with Smaz.create_lookup_loop]. apply IH. lia.
Qed.

Lemma lookup_loop_none l k lookup sub :
  (forall j, k + j < 254 -> l !! j <> Some sub) ->
  SmazMultilang.create_lookup_loop (zip (seq k (length l)) l) lookup !! sub
  = lookup !! sub.
Proof.
  revert k lookup. induction l as [|x l IH]; intros k lookup Hno; [done|].
  rewrite lookup_loop_step. destruct (Nat.leb_spec 254 k); [done|].
  rewrite IH.
  - apply lookup_insert_ne. intros ->. apply (Hno 0); [lia|done].
  - intros j Hj. apply (Hno (S j)). lia.
Qed.

(** Last wins: the value of a key is its largest index below the cutoff. *)
Lemma lookup_loop_last l k lookup sub j :
  l !! j = Some sub -> k + j < 254 ->
  (forall j', j < j' -> k + j' < 254 -> l !! j' <> Some sub) ->
  SmazMultilang.create_lookup_loop (zip (seq k (length l)) l) lookup !! sub
  = Some [chr (k + j)].
Proof.
  revert k lookup j. induction l as [|x l IH]; intros k lookup j Hj Hk Hlast;
    [done|].
  rewrite lookup_loop_step. destruct (Nat.leb_spec 254 k); [lia|].
  destruct j as [|j]; simplify_eq/=.
  - rewrite lookup_loop_none.
    + rewrite Nat.add_0_r. apply lookup_insert_eq.
    + intros j Hj. apply (Hlast (S j)); lia.
  - replace (k + S j) with (S k + j) by lia. apply IH; [done|lia|].
    intros j' Hlt Hj'. apply (Hlast (S j')); lia.
Qed.

Lemma lookup_loop_sound l k lookup sub code :
  SmazMultilang.create_lookup_loop (zip (seq k (length l)) l) lookup !! sub
  = Some code ->
  lookup !! sub = Some code \/
  exists j, code = [chr (k + j)] /\ k + j < 254 /\ l !! j = Some sub.
Proof.
  revert k lookup. induction l as [|x l IH]; intros k lookup; [by left|].
  rewrite lookup_loop_step. destruct (Nat.leb_spec 254 k); [by left|].
  intros [Hin | (j & -> & Hj & Hsub)]%IH.
  - destruct (decide (x = sub)) as [->|Hne].
    + rewrite lookup_insert_eq in Hin. simplify_eq. right. exists 0.
      rewrite Nat.add_0_r. split_and!; [done|lia|done].
    + rewrite lookup_insert_ne in Hin by done. by left.
  - right. exists (S j). replace (k + S j) with (S k + j) by lia.
    split_and!; [done|lia|done].
Qed.

Lemma Multilang_lookup_sound D : lookup_sound (SmazMultilang.init D).
Proof.
  intros sub code Hin. cbn in Hin. unfold SmazMultilang._create_lookup, enumerate in Hin.
  apply lookup_loop_sound in Hin as [Hin | (j & -> & Hj & Hsub)]; [done|].
  exists j. by rewrite Nat.add_0_l in *.
Qed.

Lemma Smaz_lookup_guarded D :
  length D <= 254 -> Smaz._create_lookup D = SmazMultilang._create_lookup D.
Proof. intros HD. apply Smaz_loop_guarded. lia. Qed.

Lemma Smaz_lookup_sound D : length D <= 254 -> lookup_sound (Smaz.init D).
Proof.
  intros HD. unfold Smaz.init. rewrite Smaz_lookup_guarded by done.
  apply Multilang_lookup_sound.
Qed.

End Lookup.

(** ** The decoder loop *)

Section Decoder.

Variable self : codec.

Implicit Types (c pre rest : str) (out : list str) (pos : nat).

(** Once the fuel covers the characters left, its amount does not matter. *)
Lemma decompress_loop_fuel fuel fuel' c pos out :
  length c - pos <= fuel -> length c - pos <= fuel' ->
  decompress_loop self fuel c (length c) pos out
  = decompress_loop self fuel' c (length c) pos out.
Proof.
  revert fuel' pos out.
  induction fuel as [|fuel IH]; intros [|fuel'] pos out H1 H2;
    cbn [decompress_loop]; destruct (Nat.ltb_spec pos (length c));
    try done; try lia.
  destruct (c !! pos) as [ch|]; [|done]. cbv zeta.
  destruct (ord ch <? 254)%N.
  { destruct (DECODE self !! N.to_nat (ord ch)); [|done]. apply IH; lia. }
  destruct (c !! (pos + 1)) as [next_byte|]; [|done].
  destruct (ord ch =? 254)%N; [apply IH; lia|].
  destruct (Nat.ltb_spec (length c) (pos + 1 + 1 + N.to_nat (ord next_byte) + 1));
    [done|apply IH; lia].
Qed.

(** One iteration of the [while] loop of [decompress]. *)
Lemma decode_from_eq c pos out :
  decode_from self c pos out =
  if pos <? length c then
    match c !! pos with
    | None => Raises IndexError
    | Some ch =>
        if (ch <? 254)%N then
          match DECODE self !! N.to_nat ch with
          | None => Raises IndexError
          | Some entry => decode_from self c (pos + 1) (out ++ [entry])
          end
        else
          match c !! (pos + 1) with
          | None => Raises IndexError
          | Some next_byte =>
              if (ch =? 254)%N then
                decode_from self c (pos + 1 + 1) (out ++ [[next_byte]])
              else
                let end_pos := pos + 1 + 1 + N.to_nat next_byte + 1 in
                if length c <? end_pos then
                  Raises (ValueError "Desbordamiento de buffer")
                else
                  decode_from self c end_pos
                    (out ++ [slice c (pos + 1 + 1) end_pos])
          end
    end
  else Returns out.
Proof.
  unfold decode_from at 1.
  destruct (Nat.ltb_spec pos (length c)) as [Hlt|Hge].
  - destruct (length c - pos) as [|fuel] eqn:Hfuel; [lia|].
    cbn [decompress_loop]. destruct (Nat.ltb_spec pos (length c)); [|lia].
    unfold ord, decode_from.
    destruct (c !! pos) as [ch|]; [|done]. cbv zeta.
    destruct (ch <? 254)%N.
    { destruct (DECODE self !! N.to_nat ch); [|done].
      apply decompress_loop_fuel; lia. }
    destruct (c !! (pos + 1)) as [next_byte|]; [|done].
    destruct (ch =? 254)%N; [apply decompress_loop_fuel; lia|].
    destruct (Nat.ltb_spec (length c) (pos + 1 + 1 + N.to_nat next_byte + 1));
      [done|apply decompress_loop_fuel; lia].
  - destruct (length c - pos); cbn [decompress_loop];
      destruct (Nat.ltb_spec pos (length c)); done || lia.
Qed.

Lemma decode_from_end c pos out :
  length c <= pos -> decode_from self c pos out = Returns out.
Proof.
  intros Hge. rewrite decode_from_eq.
  destruct (Nat.ltb_spec pos (length c)); [lia|done].
Qed.

(** The loop of [decompress] never runs out of its fuel. *)
Lemma decode_from_total c pos out : decode_from self c pos out <> OutOfFuel.
Proof.
  remember (length c - pos) as n eqn:Hn.
  revert pos out Hn. induction (lt_wf n) as [n _ IH]. intros pos out ->.
  rewrite decode_from_eq.
  destruct (Nat.ltb_spec pos (length c)) as [Hlt|Hge]; [|done].
  destruct (c !! pos) as [ch|]; [|done].
  destruct (ch <? 254)%N.
  { destruct (DECODE self !! N.to_nat ch); [|done].
    eapply IH; [|reflexivity]. lia. }
  destruct (c !! (pos + 1)) as [next_byte|]; [|done].
  destruct (ch =? 254)%N; [eapply IH; [|reflexivity]; lia|].
  cbv zeta.
  destruct (Nat.ltb_spec (length c) (pos + 1 + 1 + N.to_nat next_byte + 1));
    [done|eapply IH; [|reflexivity]; lia].
Qed.

(** [decompress] in terms of the loop; the guard for the empty string agrees
    with it. *)
Lemma decompress_eq c :
  decompress self c =
  match decode_from self c 0 [] with
  | Returns output => Returns (concat output)
  | Raises e => Raises (ValueError_from "Error de descompresión: {}" e)
  | OutOfFuel => OutOfFuel
  end.
Proof.
  destruct c as [|ch c]; [done|].
  unfold decompress, decode_from. by rewrite Nat.sub_0_r.
Qed.

End Decoder.

(** ** Slices of a string that begins with a known prefix *)

Lemma lookup_app_plus {A} (pre l : list A) k :
  (pre ++ l) !! (length pre + k) = l !! k.
Proof. rewrite lookup_app_r by lia. f_equal. lia. Qed.

Lemma slice_app_plus (pre l : str) a b :
  slice (pre ++ l) (length pre + a) (length pre + b) = slice l a b.
Proof.
  unfold slice. rewrite drop_app_ge by lia.
  replace (length pre + a - length pre) with a by lia.
  f_equal. lia.
Qed.

Lemma slice_length (text : str) a b :
  length (slice text a b) = min (b - a) (length text - a).
Proof. unfold slice. rewrite length_take, length_drop. done. Qed.

Lemma slice_snoc (text : str) a b ch :
  a <= b -> text !! b = Some ch -> slice text a b ++ [ch] = slice text a (b + 1).
Proof.
  intros Hab Hch. unfold slice.
  replace (b + 1 - a) with (S (b - a)) by lia.
  erewrite take_S_r; [done|].
  rewrite lookup_drop. by replace (a + (b - a)) with b by lia.
Qed.

Lemma slice_join (text : str) a b c :
  a <= b -> b <= c -> slice text a b ++ slice text b c = slice text a c.
Proof.
  intros Hab Hbc. unfold slice.
  replace (c - a) with ((b - a) + (c - b)) by lia.
  rewrite <- take_take_drop, drop_drop.
  by replace (a + (b - a)) with b by lia.
Qed.

Lemma slice_all (text : str) : slice text 0 (length text) = text.
Proof. unfold slice. by rewrite drop_0, Nat.sub_0_r, firstn_all. Qed.

(** ** Decoding a stream of tokens *)

Section Decode_tokens.

Variable self : codec.

Lemma wire_length tk : 1 <= length (wire tk).
Proof. destruct tk; cbn; lia. Qed.

Lemma emitted_decodable tk : emitted self tk -> decodable self tk.
Proof.
  destruct tk as [i|b|data]; cbn; [|done|lia].
  intros (sub & _ & Hsub & Hi & _). by rewrite Hsub.
Qed.

(** One iteration consumes one token and appends its text. *)
Lemma decode_token pre tk rest out :
  decodable self tk ->
  decode_from self (pre ++ wire tk ++ rest) (length pre) out
  = decode_from self (pre ++ wire tk ++ rest) (length pre + length (wire tk))
      (out ++ [text_of self tk]).
Proof.
  intros Hdec. rewrite decode_from_eq.
  pose proof (wire_length tk) as Hlen.
  destruct (Nat.ltb_spec (length pre) (length (pre ++ wire tk ++ rest)))
    as [_|Hge]; [|rewrite !length_app in Hge; lia].
  replace (length pre + 1 + 1) with (length pre + 2) by lia.
  rewrite <- (Nat.add_0_r (length pre)) at 1.
  rewrite !lookup_app_plus.
  destruct tk as [i|b|data];
    cbn [wire controls payload text_of decodable length app] in *.
  - destruct Hdec as (Hi & sub & Hsub).
    unfold chr. cbn [lookup list_lookup].
    destruct (N.ltb_spec (N.of_nat i) 254); [|lia].
    by rewrite Nat2N.id, Hsub.
  - unfold chr. cbn. do 2 f_equal.
  - unfold chr. cbn [lookup list_lookup].
    change (N.of_nat 255 <? 254)%N with false.
    change (N.of_nat 255 =? 254)%N with false. cbv iota zeta.
    rewrite Nat2N.id.
    replace (length pre + 2 + (length data - 1) + 1)
      with (length pre + (2 + length data)) by lia.
    match goal with
    | |- context [?a <? ?b] => destruct (Nat.ltb_spec a b) as [Hlt|_]
    end.
    { rewrite length_app in Hlt. cbn [length] in Hlt.
      rewrite length_app in Hlt. lia. }
    rewrite slice_app_plus.
    replace (length pre + S (S (length data)))
      with (length pre + (2 + length data)) by lia.
    do 3 f_equal. unfold slice. cbn [drop].
    replace (2 + length data - 2) with (length data) by lia.
    by rewrite drop_0, take_app_length.
Qed.

(** The loop walks through a run of tokens and goes on with what follows. *)
Lemma decode_tokens_then tokens pre rest out :
  Forall (decodable self) tokens ->
  decode_from self (pre ++ wire_all tokens ++ rest) (length pre) out
  = decode_from self (pre ++ wire_all tokens ++ rest)
      (length pre + length (wire_all tokens))
      (out ++ (text_of self <$> tokens)).
Proof.
  intros Hall. revert pre out.
  induction Hall as [|tk tokens Htk _ IH]; intros pre out.
  - unfold wire_all. cbn. by rewrite Nat.add_0_r, app_nil_r.
  - unfold wire_all in *. cbn [fmap list_fmap concat].
    rewrite <- (app_assoc (wire tk)), decode_token by done.
    rewrite <- length_app, (app_assoc pre), IH.
    rewrite !length_app, <- !app_assoc. cbn [app]. f_equal. lia.
Qed.

Lemma decode_tokens tokens pre out :
  Forall (decodable self) tokens ->
  decode_from self (pre ++ wire_all tokens) (length pre) out
  = Returns (out ++ (text_of self <$> tokens)).
Proof.
  intros Hall.
  pose proof (decode_tokens_then tokens pre [] out Hall) as Hthen.
  rewrite app_nil_r in Hthen. rewrite Hthen.
  apply decode_from_end. by rewrite length_app.
Qed.

(** Decoding the wire form of tokens gives back their text. *)
Lemma decompress_decodable tokens :
  Forall (decodable self) tokens ->
  decompress self (wire_all tokens) = Returns (text_of_all self tokens).
Proof.
  intros Hall. rewrite decompress_eq.
  pose proof (decode_tokens tokens [] [] Hall) as Hdec.
  cbn [app length] in Hdec. by rewrite Hdec.
Qed.

Lemma decompress_tokens tokens :
  Forall (emitted self) tokens ->
  decompress self (wire_all tokens) = Returns (text_of_all self tokens).
Proof.
  intros Hall. apply decompress_decodable.
  eapply Forall_impl; [done|]. apply emitted_decodable.
Qed.

(** A stream that is rejected after some tokens. *)
Lemma decompress_after tokens rest e :
  Forall (decodable self) tokens ->
  (forall out, decode_from self (wire_all tokens ++ rest)
                 (length (wire_all tokens)) out = Raises e) ->
  decompress self (wire_all tokens ++ rest)
  = Raises (ValueError_from "Error de descompresión: {}" e).
Proof.
  intros Hall Hrest. rewrite decompress_eq.
  pose proof (decode_tokens_then tokens [] rest [] Hall) as Hthen.
  cbn [app length] in Hthen. by rewrite Hthen, Nat.add_0_l, Hrest.
Qed.

End Decode_tokens.

(** ** The encoder loop *)

Lemma wire_all_app tokens tokens' :
  wire_all (tokens ++ tokens') = wire_all tokens ++ wire_all tokens'.
Proof. unfold wire_all. by rewrite fmap_app, concat_app. Qed.

Lemma text_of_all_app self tokens tokens' :
  text_of_all self (tokens ++ tokens')
  = text_of_all self tokens ++ text_of_all self tokens'.
Proof. unfold text_of_all. by rewrite fmap_app, concat_app. Qed.

Lemma wire_all_singleton tk : wire_all [tk] = wire tk.
Proof. unfold wire_all. cbn. apply app_nil_r. Qed.

Lemma text_of_all_singleton self tk : text_of_all self [tk] = text_of self tk.
Proof. unfold text_of_all. cbn. apply app_nil_r. Qed.

Section Flush.

Implicit Types (buffer : list char) (output : list str).

(** The three cases of the flush rule. *)
Lemma flush_empty output : _flush_verbatim [] output = ([], output).
Proof. reflexivity. Qed.

Lemma flush_single b output :
  _flush_verbatim [b] output = ([], output ++ [[254%N; b]]).
Proof. reflexivity. Qed.

Lemma flush_run buffer output :
  2 <= length buffer ->
  _flush_verbatim buffer output
  = ([], output ++ [[255%N; N.of_nat (length buffer - 1)]; buffer]).
Proof.
  intros Hlen. destruct buffer as [|b0 [|b1 buffer]]; cbn in Hlen; try lia.
  unfold _flush_verbatim. cbn [length Nat.eqb]. by rewrite <- app_assoc.
Qed.

Lemma flush_clears buffer output : (_flush_verbatim buffer output).1 = [].
Proof. by destruct buffer as [|b0 [|b1 buffer]]. Qed.

(** A flush appends the wire form of [flush_tokens]. *)
Lemma flush_spec buffer output :
  exists output',
    _flush_verbatim buffer output = ([], output') /\
    concat output' = concat output ++ wire_all (flush_tokens buffer).
Proof.
  destruct buffer as [|b0 [|b1 buffer]].
  - exists output. split; [done|]. by rewrite app_nil_r.
  - eexists. split; [apply flush_single|].
    rewrite concat_app. f_equal.
  - eexists. split; [apply flush_run; cbn; lia|].
    rewrite concat_app. f_equal.
Qed.

Lemma flush_tokens_text self buffer :
  text_of_all self (flush_tokens buffer) = buffer.
Proof.
  destruct buffer as [|b0 [|b1 buffer]]; [done..|].
  cbn [flush_tokens]. by rewrite text_of_all_singleton.
Qed.

Lemma flush_tokens_emitted self buffer :
  length buffer <= 255 -> Forall (emitted self) (flush_tokens buffer).
Proof.
  intros Hlen. destruct buffer as [|b0 [|b1 buffer]]; cbn [flush_tokens].
  - constructor.
  - by apply Forall_singleton.
  - apply Forall_singleton. cbn in *. lia.
Qed.

End Flush.

Section Encoder.

Variable self : codec.

Implicit Types (text : str) (verbatim : list char) (output : list str).

(** The scan yields the longest window, of [match_len] characters at most,
    that is a key of [_lookup]. *)
Lemma find_match_spec text pos match_len :
  match find_match self text pos match_len with
  | (Some code, best_len) =>
      1 <= best_len <= match_len /\
      _lookup self !! slice text pos (pos + best_len) = Some code /\
      forall n, best_len < n <= match_len ->
        _lookup self !! slice text pos (pos + n) = None
  | (None, best_len) =>
      best_len = 0 /\
      forall n, 1 <= n <= match_len ->
        _lookup self !! slice text pos (pos + n) = None
  end.
Proof.
  induction match_len as [|m IH]; cbn [find_match].
  - split; [done|]. intros n Hn. lia.
  - destruct (_lookup self !! slice text pos (pos + S m)) as [code|] eqn:Hin.
    + split_and!; [lia|lia|done|]. intros n Hn. lia.
    + destruct (find_match self text pos m) as [[code|] best_len].
      * destruct IH as (Hlen & Hcode & Hlonger).
        split_and!; [lia|lia|done|].
        intros n Hn. destruct (decide (n = S m)) as [->|]; [done|].
        apply Hlonger. lia.
      * destruct IH as (-> & Hnone). split; [done|].
        intros n Hn. destruct (decide (n = S m)) as [->|]; [done|].
        apply Hnone. lia.
Qed.

Lemma find_match_none text pos match_len :
  (forall n, 1 <= n <= match_len ->
     _lookup self !! slice text pos (pos + n) = None) ->
  find_match self text pos match_len = (None, 0).
Proof.
  intros Hnone. pose proof (find_match_spec text pos match_len) as Hspec.
  destruct (find_match self text pos match_len) as [[code|] best_len].
  - destruct Hspec as (Hlen & Hcode & _). rewrite Hnone in Hcode by lia. done.
  - by destruct Hspec as (-> & _).
Qed.

Hypothesis Hsound : lookup_sound self.

(** The loop keeps the tokens written so far, followed by the pending
    literals, equal to the text read so far. *)
Lemma compress_loop_tokens text fuel pos verbatim output tokens :
  length text - pos <= fuel -> pos <= length text ->
  concat output = wire_all tokens ->
  Forall (emitted self) tokens ->
  text_of_all self tokens ++ verbatim = slice text 0 pos ->
  length verbatim < 255 ->
  exists verbatim' output' tokens',
    compress_loop self fuel text (length text) pos verbatim output
    = Returns (verbatim', output') /\
    concat output' = wire_all tokens' /\
    Forall (emitted self) tokens' /\
    text_of_all self tokens' ++ verbatim' = text /\
    length verbatim' < 255.
Proof.
  revert pos verbatim output tokens.
  induction fuel as [|fuel IH]; intros pos verbatim output tokens
    Hfuel Hpos Hout Hem Htext Hlen.
  { exists verbatim, output, tokens. cbn [compress_loop].
    destruct (Nat.ltb_spec pos (length text)); [lia|].
    replace pos with (length text) in Htext by lia.
    by rewrite slice_all in Htext. }
  cbn [compress_loop].
  destruct (Nat.ltb_spec pos (length text)) as [Hlt|Hge]; last first.
  { exists verbatim, output, tokens.
    replace pos with (length text) in Htext by lia.
    by rewrite slice_all in Htext. }
  pose proof (find_match_spec text pos (min 7 (length text - pos))) as Hfind.
  destruct (find_match self text pos (min 7 (length text - pos)))
    as [best_match best_len].
  destruct (truthy best_match) eqn:Htruthy.
  - destruct best_match as [code|]; [|done].
    destruct Hfind as (Hbest & Hcode & _).
    destruct (Hsound _ _ Hcode) as (i & -> & Hi & Hentry).
    destruct (flush_spec verbatim output) as (output1 & -> & Hout1).
    cbn [default].
    apply (IH _ _ _ (tokens ++ flush_tokens verbatim ++ [Entry i])); try lia.
    + rewrite concat_app, Hout1, Hout, !wire_all_app, wire_all_singleton.
      cbn. by rewrite <- !app_assoc.
    + rewrite !Forall_app. split_and!; [done|apply flush_tokens_emitted; lia|].
      apply Forall_singleton. cbn [emitted].
      eexists. split_and!; [done|done|done|..];
        rewrite slice_length; lia.
    + rewrite !text_of_all_app, flush_tokens_text, text_of_all_singleton.
      cbn [text_of]. rewrite Hentry. cbn [default].
      rewrite (app_assoc _ verbatim), Htext, app_nil_r.
      apply slice_join; lia.
    + cbn. lia.
  - clear Hfind Htruthy.
    destruct (lookup_lt_is_Some_2 text pos Hlt) as [ch Hch]. rewrite Hch.
    cbv zeta. rewrite length_app. cbn [length].
    assert (Hnext : text_of_all self tokens ++ verbatim ++ [ch]
                    = slice text 0 (pos + 1)).
    { rewrite app_assoc, Htext. by apply slice_snoc; [lia|]. }
    destruct (Nat.eqb_spec (length verbatim + 1) 255) as [Hfull|Hroom].
    + destruct (flush_spec (verbatim ++ [ch]) output) as (output1 & -> & Hout1).
      apply (IH _ _ _ (tokens ++ flush_tokens (verbatim ++ [ch]))); try lia.
      * by rewrite Hout1, Hout, wire_all_app.
      * rewrite Forall_app. split; [done|]. apply flush_tokens_emitted.
        rewrite length_app. cbn. lia.
      * by rewrite text_of_all_app, flush_tokens_text, app_nil_r.
      * cbn. lia.
    + apply (IH _ _ _ tokens); try done; try lia.
      rewrite length_app. cbn. lia.
Qed.

(** The tokens that [compress] writes before the size check. *)
Lemma compress_tokens_spec text :
  exists output tokens,
    compress_tokens self text = Returns output /\
    concat output = wire_all tokens /\
    Forall (emitted self) tokens /\
    text_of_all self tokens = text.
Proof.
  unfold compress_tokens.
  destruct (compress_loop_tokens text (length text) 0 [] [] [])
    as (verbatim & output & tokens & -> & Hout & Hem & Htext & Hlen);
    [lia|lia|done|done|done|cbn; lia|].
  cbn [mbind outcome_bind].
  destruct (flush_spec verbatim output) as (output1 & -> & Hout1).
  exists output1, (tokens ++ flush_tokens verbatim). split_and!.
  - done.
  - by rewrite Hout1, Hout, wire_all_app.
  - rewrite Forall_app. split; [done|]. apply flush_tokens_emitted. lia.
  - by rewrite text_of_all_app, flush_tokens_text.
Qed.

End Encoder.

(** ** The encapsulated form *)

Section Encapsulate.

Implicit Types (text chunk : str) (starts : list nat).

Lemma chunk_token_wire chunk :
  wire (chunk_token chunk)
  = if length chunk =? 1 then [chr 254] ++ chunk
    else [chr 255] ++ [chr (length chunk - 1)] ++ chunk.
Proof. by destruct chunk as [|b0 [|b1 chunk]]. Qed.

Lemma chunk_token_text self chunk : text_of self (chunk_token chunk) = chunk.
Proof. by destruct chunk as [|b0 [|b1 chunk]]. Qed.

Lemma chunk_token_emitted self chunk :
  1 <= length chunk <= 255 -> emitted self (chunk_token chunk).
Proof. destruct chunk as [|b0 [|b1 chunk]]; cbn; [lia|done|lia]. Qed.

Lemma chunk_token_literal chunk : is_Entry (chunk_token chunk) = false.
Proof. by destruct chunk as [|b0 [|b1 chunk]]. Qed.

Lemma chunk_token_length chunk :
  length (wire (chunk_token chunk)) <= length chunk + 2.
Proof. destruct chunk as [|b0 [|b1 chunk]]; cbn; lia. Qed.

(** The [for] loop of [_encapsulate] writes one token per chunk. *)
Lemma encapsulate_loop_wire text starts output :
  concat (encapsulate_loop text starts output)
  = concat output ++ wire_all (chunk_tokens text starts).
Proof.
  revert output. induction starts as [|i starts IH]; intros output.
  - unfold wire_all. cbn. by rewrite app_nil_r.
  - cbn [encapsulate_loop chunk_tokens fmap list_fmap]. cbv zeta.
    change (wire_all (?tk :: ?tks)) with (wire tk ++ wire_all tks).
    rewrite chunk_token_wire.
    destruct (length (slice text i (i + 255)) =? 1); rewrite IH.
    + rewrite concat_app. cbn [concat]. by rewrite app_nil_r, <- app_assoc.
    + rewrite !concat_app. cbn [concat]. by rewrite app_nil_r, <- !app_assoc.
Qed.

(** The starts [0, 255, 510, ...] cut a text into its chunks. *)
Lemma chunk_starts_S text m :
  chunk_tokens text ((fun k => k * 255) <$> seq 0 (S m))
  = chunk_token (take 255 text)
    :: chunk_tokens (drop 255 text) ((fun k => k * 255) <$> seq 0 m).
Proof.
  unfold chunk_tokens. cbn [seq fmap list_fmap]. f_equal.
  rewrite <- fmap_S_seq, <- !list_fmap_compose.
  apply list_fmap_ext. intros _ k _. cbn [compose]. f_equal.
  unfold slice. rewrite drop_drop. f_equal; lia.
Qed.

Lemma chunk_tokens_spec self m text :
  length text <= 255 * m -> 255 * m < length text + 255 ->
  let tokens := chunk_tokens text ((fun k => k * 255) <$> seq 0 m) in
  text_of_all self tokens = text /\
  Forall (emitted self) tokens /\
  Forall (fun tk => is_Entry tk = false) tokens /\
  length (wire_all tokens) <= length text + 2 * m.
Proof.
  revert text. induction m as [|m IH]; intros text Hle Hlt.
  - destruct text; [|cbn in Hle; lia]. cbn. split_and!; by try constructor.
  - cbv zeta. rewrite chunk_starts_S.
    destruct (IH (drop 255 text)) as (Htext & Hem & Hlit & Hlen);
      [rewrite length_drop; lia..|].
    change (text_of_all self (?tk :: ?tks))
      with (text_of self tk ++ text_of_all self tks).
    change (wire_all (?tk :: ?tks)) with (wire tk ++ wire_all tks).
    split_and!.
    + by rewrite chunk_token_text, Htext, take_drop.
    + constructor; [|done]. apply chunk_token_emitted.
      rewrite length_take. lia.
    + constructor; [apply chunk_token_literal|done].
    + rewrite length_app.
      pose proof (chunk_token_length (take 255 text)) as Hchunk.
      rewrite length_take in Hchunk. rewrite length_drop in Hlen. lia.
Qed.

Lemma encapsulate_spec self text :
  exists tokens,
    _encapsulate text = wire_all tokens /\
    text_of_all self tokens = text /\
    Forall (emitted self) tokens /\
    Forall (fun tk => is_Entry tk = false) tokens /\
    length (wire_all tokens) <= _worst_size (length text).
Proof.
  destruct text as [|b0 text]; [by exists []; split_and!; try constructor|].
  set (full := b0 :: text).
  exists (chunk_tokens full (range_step (length full) 255)).
  unfold _encapsulate. fold full. rewrite encapsulate_loop_wire.
  split; [done|].
  unfold range_step. div255 (length full + 255 - 1).
  edestruct (chunk_tokens_spec self ((length full + 255 - 1) / 255) full)
    as (Htext & Hem & Hlit & Hlen); [lia..|].
  split_and!; [done..|].
  destruct text as [|b1 text]; [by vm_compute|].
  rewrite worst_size_chunks by (cbn; lia).
  replace (length full + 254) with (length full + 255 - 1) by lia. lia.
Qed.

End Encapsulate.

(** ** [compress] as a whole *)

Section Compress.

Variable self : codec.

Implicit Types (text : str).

(** After the size check the result is still a stream of encoder tokens for
    the text, and it fits the bound. *)
Lemma compress_body_spec text :
  lookup_sound self ->
  exists tokens,
    compress_body self text = Returns (wire_all tokens) /\
    Forall (emitted self) tokens /\
    text_of_all self tokens = text /\
    length (wire_all tokens) <= _worst_size (length text).
Proof.
  intros Hsound. unfold compress_body.
  destruct (compress_tokens_spec self Hsound text)
    as (output & tokens & -> & Hout & Hem & Htext).
  cbn [mbind outcome_bind mret outcome_ret].
  destruct (Nat.ltb_spec (_worst_size (length text)) (length (concat output)))
    as [Hbig|Hfits].
  - destruct (encapsulate_spec self text)
      as (tokens' & -> & Htext' & Hem' & _ & Hlen').
    by exists tokens'.
  - rewrite Hout in *. by exists tokens.
Qed.

(** The ASCII check of [smaz.py]. *)
Lemma is_ascii_spec text : Smaz._is_ascii text = true <-> ascii_text text.
Proof.
  unfold ascii_text, ord. induction text as [|ch text IH]; cbn [Smaz._is_ascii].
  - split; [constructor|done].
  - rewrite Forall_cons, <- IH. unfold ord.
    destruct (N.leb_spec 128 ch); [|by intuition].
    split; [done|]. intros [Hch _]. lia.
Qed.

(** The ASCII check of [smaz_multilang.py]. *)
Lemma check_ascii_loop_spec text :
  if decide (ascii_text text) then
    SmazMultilang.check_ascii_loop text = Returns tt
  else
    SmazMultilang.check_ascii_loop text = Raises
      (ValueError "SMAZ con verificación ASCII solo procesa texto ASCII").
Proof.
  unfold ascii_text, ord. induction text as [|ch text IH];
    cbn [SmazMultilang.check_ascii_loop].
  - by rewrite decide_True by constructor.
  - unfold ord. destruct (N.leb_spec 128 ch) as [Hhigh|Hlow].
    + rewrite decide_False; [done|]. rewrite Forall_cons. lia.
    + destruct (decide (Forall _ text)) as [Hall|Hnot].
      * by rewrite decide_True by by constructor.
      * rewrite decide_False; [done|]. rewrite Forall_cons. tauto.
Qed.

Lemma Smaz_compress_accepted text check_ascii :
  accepted check_ascii text ->
  Smaz.compress self text check_ascii = compress_body self text.
Proof.
  intros Hacc. destruct text as [|ch text]; [done|].
  unfold Smaz.compress. destruct check_ascii; [|done].
  apply is_ascii_spec in Hacc; [|done]. by rewrite Hacc.
Qed.

Lemma Smaz_compress_rejected text :
  ~ ascii_text text ->
  Smaz.compress self text true = Raises (ValueError "SMAZ solo procesa texto ASCII").
Proof.
  intros Hnot. destruct text as [|ch text]; [by destruct Hnot; constructor|].
  unfold Smaz.compress. rewrite <- is_ascii_spec in Hnot.
  by destruct (Smaz._is_ascii (ch :: text)).
Qed.

Lemma Multilang_compress_accepted text check_ascii :
  accepted check_ascii text ->
  SmazMultilang.compress self text check_ascii = compress_body self text.
Proof.
  intros Hacc. destruct text as [|ch text]; [done|].
  unfold SmazMultilang.compress. destruct check_ascii; [|done].
  pose proof (check_ascii_loop_spec (ch :: text)) as Hloop.
  rewrite decide_True in Hloop by by apply Hacc. by rewrite Hloop.
Qed.

Lemma Multilang_compress_rejected text :
  ~ ascii_text text ->
  SmazMultilang.compress self text true = Raises
    (ValueError "SMAZ con verificación ASCII solo procesa texto ASCII").
Proof.
  intros Hnot. destruct text as [|ch text]; [by destruct Hnot; constructor|].
  unfold SmazMultilang.compress.
  pose proof (check_ascii_loop_spec (ch :: text)) as Hloop.
  rewrite decide_False in Hloop by done. by rewrite Hloop.
Qed.

End Compress.

(** ** The round trip *)

Lemma round_trip_body self text :
  lookup_sound self ->
  exists c, compress_body self text = Returns c /\
            decompress self c = Returns text.
Proof.
  intros Hsound.
  destruct (compress_body_spec self text Hsound)
    as (tokens & Hc & Hem & Htext & _).
  exists (wire_all tokens). split; [done|].
  by rewrite decompress_tokens, Htext.
Qed.

Lemma encapsulate_round_trip self text :
  decompress self (_encapsulate text) = Returns text.
Proof.
  destruct (encapsulate_spec self text) as (tokens & -> & Htext & Hem & _).
  by rewrite decompress_tokens, Htext.
Qed.

Lemma not_ascii_text text :
  Exists (fun ch => (128 <= ord ch)%N) text -> ~ ascii_text text.
Proof.
  unfold ascii_text. intros Hex Hall.
  apply Exists_exists in Hex as (ch & Hin & Hch).
  rewrite Forall_forall in Hall. specialize (Hall ch Hin). lia.
Qed.

(** C1.  Round trip.  For a text that the encoder accepts (ASCII when
    [check_ascii] is set, any text otherwise), [compress] returns a stream
    and [decompress] of that stream, with the same table, returns the text.
    This holds for [Smaz] with any table of at most 254 entries, for
    [SmazMultilang] with any table, and for the encapsulated form that
    replaces the token stream when it is longer than the bound; the text
    [XaXaXa] is one where [Smaz] takes that replacement. *)
Theorem round_trip :
  (forall D text check_ascii,
     length D <= 254 -> accepted check_ascii text ->
     exists c, Smaz.compress (Smaz.init D) text check_ascii = Returns c /\
               decompress (Smaz.init D) c = Returns text) /\
  (forall D text check_ascii,
     accepted check_ascii text ->
     exists c,
       SmazMultilang.compress (SmazMultilang.init D) text check_ascii
       = Returns c /\
       decompress (SmazMultilang.init D) c = Returns text) /\
  (forall self text, decompress self (_encapsulate text) = Returns text) /\
  (compress_tokens Smaz.instance (s "XaXaXa")
   = Returns [[254; 88]; [4]; [254; 88]; [4]; [254; 88]; [4]]%N /\
   Smaz.compress Smaz.instance (s "XaXaXa") true
   = Returns (_encapsulate (s "XaXaXa"))).
Proof.
  split_and!.
  - intros D text check_ascii HD Hacc.
    rewrite Smaz_compress_accepted by done.
    by apply round_trip_body, Smaz_lookup_sound.
  - intros D text check_ascii Hacc.
    rewrite Multilang_compress_accepted by done.
    apply round_trip_body, Multilang_lookup_sound.
  - apply encapsulate_round_trip.
  - by vm_compute.
  - by vm_compute.
Qed.

Lemma round_trip_witness :
  length Smaz.DECODE <= 254 /\ accepted true (s "the end") /\
  exists c, Smaz.compress (Smaz.init Smaz.DECODE) (s "the end") true
            = Returns c /\
            decompress (Smaz.init Smaz.DECODE) c = Returns (s "the end").
Proof.
  assert (Hlen : length Smaz.DECODE <= 254) by (vm_compute; lia).
  assert (Hacc : accepted true (s "the end"))
    by (intros _; repeat constructor).
  split_and!; [done|done|].
  exact (proj1 round_trip Smaz.DECODE (s "the end") true Hlen Hacc).
Defined.

(** C7.  The ASCII check.  With [check_ascii] set, a text that holds a
    character of value 128 or more makes [compress] raise [ValueError], and
    nothing is returned; with [check_ascii] unset every text is compressed. *)
Theorem ascii_check :
  (forall self text,
     Exists (fun ch => (128 <= ord ch)%N) text ->
     Smaz.compress self text true
     = Raises (ValueError "SMAZ solo procesa texto ASCII")) /\
  (forall self text,
     Exists (fun ch => (128 <= ord ch)%N) text ->
     SmazMultilang.compress self text true
     = Raises
         (ValueError "SMAZ con verificación ASCII solo procesa texto ASCII")) /\
  (forall D text,
     length D <= 254 ->
     exists c, Smaz.compress (Smaz.init D) text false = Returns c) /\
  (forall D text,
     exists c,
       SmazMultilang.compress (SmazMultilang.init D) text false = Returns c).
Proof.
  split_and!.
  - intros self text Hex. by apply Smaz_compress_rejected, not_ascii_text.
  - intros self text Hex. by apply Multilang_compress_rejected, not_ascii_text.
  - intros D text HD. rewrite Smaz_compress_accepted by done.
    destruct (round_trip_body (Smaz.init D) text) as (c & Hc & _);
      [by apply Smaz_lookup_sound|by exists c].
  - intros D text. rewrite Multilang_compress_accepted by done.
    destruct (round_trip_body (SmazMultilang.init D) text) as (c & Hc & _);
      [by apply Multilang_lookup_sound|by exists c].
Qed.

Lemma ascii_check_witness :
  Exists (fun ch => (128 <= ord ch)%N) (s "se" ++ [241%N] ++ s "or") /\
  Smaz.compress Smaz.instance (s "se" ++ [241%N] ++ s "or") true
  = Raises (ValueError "SMAZ solo procesa texto ASCII").
Proof.
  assert (Hex : Exists (fun ch => (128 <= ord ch)%N)
                  (s "se" ++ [241%N] ++ s "or")).
  { apply Exists_cons_tl, Exists_cons_tl, Exists_cons_hd. by vm_compute. }
  split; [done|].
  exact (proj1 ascii_check Smaz.instance _ Hex).
Defined.

(** C8.  Empty input.  [compress] of the empty string is the empty string,
    whatever [check_ascii] is, and [decompress] of the empty string is the
    empty string. *)
Theorem empty_input self check_ascii :
  Smaz.compress self [] check_ascii = Returns [] /\
  SmazMultilang.compress self [] check_ascii = Returns [] /\
  decompress self [] = Returns [].
Proof. done. Qed.

(** ** What the decoder accepts *)

Lemma wire_all_cons tk tokens : wire_all (tk :: tokens) = wire tk ++ wire_all tokens.
Proof. reflexivity. Qed.

Lemma drop_slice (c : str) a b :
  a <= b -> drop a c = slice c a b ++ drop b c.
Proof.
  intros Hab. unfold slice.
  rewrite <- (take_drop (b - a) (drop a c)) at 1.
  rewrite drop_drop. by replace (a + (b - a)) with b by lia.
Qed.

Section Decoder_grammar.

Variable self : codec.

(** A stream of bytes that [decompress] accepts is the wire form of
    decodable tokens, and the result is their text. *)
Lemma decode_from_parses c pos out out' :
  bytes c -> pos <= length c ->
  decode_from self c pos out = Returns out' ->
  exists tokens,
    drop pos c = wire_all tokens /\
    Forall (decodable self) tokens /\
    out' = out ++ (text_of self <$> tokens).
Proof.
  intros Hbytes. remember (length c - pos) as n eqn:Hn.
  revert pos out Hn. induction (lt_wf n) as [n _ IH]. intros pos out -> Hpos.
  rewrite decode_from_eq.
  destruct (Nat.ltb_spec pos (length c)) as [Hlt|Hge].
  2:{ intros [= <-]. exists []. rewrite drop_ge by done.
      split_and!; [done|constructor|by rewrite app_nil_r]. }
  destruct (c !! pos) as [ch|] eqn:Hch; [|done].
  rewrite (drop_S _ _ _ Hch).
  destruct (N.ltb_spec ch 254) as [Hidx|Hesc].
  { destruct (DECODE self !! N.to_nat ch) as [entry|] eqn:Hentry; [|done].
    intros Hrun.
    apply (IH (length c - (pos + 1)) ltac:(lia) _ _ eq_refl ltac:(lia))
      in Hrun as (tokens & Hdrop & Hall & ->).
    exists (Entry (N.to_nat ch) :: tokens).
    rewrite wire_all_cons, <- Hdrop, Nat.add_1_r. cbn [wire controls payload app].
    unfold chr. rewrite N2Nat.id. split_and!.
    - done.
    - constructor; [|done]. cbn. rewrite Hentry. split; [lia|done].
    - cbn [fmap list_fmap text_of]. rewrite Hentry, <- app_assoc. done. }
  destruct (c !! (pos + 1)) as [next_byte|] eqn:Hnext; [|done].
  rewrite Nat.add_1_r in Hnext. rewrite (drop_S _ _ _ Hnext).
  pose proof (lookup_lt_Some _ _ _ Hnext) as Hlt2.
  destruct (N.eqb_spec ch 254) as [->|Hrun255].
  { intros Hrun.
    apply (IH (length c - (pos + 1 + 1)) ltac:(lia) _ _ eq_refl ltac:(lia))
      in Hrun as (tokens & Hdrop & Hall & ->).
    exists (Literal next_byte :: tokens).
    replace (pos + 1 + 1) with (S (S pos)) in Hdrop by lia.
    rewrite wire_all_cons, <- Hdrop. cbn [wire controls payload app].
    split_and!.
    - done.
    - by constructor.
    - cbn [fmap list_fmap text_of]. by rewrite <- app_assoc. }
  cbv zeta.
  destruct (Nat.ltb_spec (length c) (pos + 1 + 1 + N.to_nat next_byte + 1))
    as [|Hend]; [done|].
  intros Hrun.
  apply (IH (length c - (pos + 1 + 1 + N.to_nat next_byte + 1)) ltac:(lia)
           _ _ eq_refl ltac:(lia))
    in Hrun as (tokens & Hdrop & Hall & ->).
  assert (Hch255 : ch = 255%N).
  { unfold bytes in Hbytes. rewrite Forall_lookup in Hbytes.
    specialize (Hbytes _ _ Hch). cbn in Hbytes. lia. }
  assert (Hbyte : (next_byte <= 255)%N).
  { unfold bytes in Hbytes. rewrite Forall_lookup in Hbytes.
    apply (Hbytes _ _ Hnext). }
  set (end_pos := pos + 1 + 1 + N.to_nat next_byte + 1) in *.
  set (data := slice c (pos + 1 + 1) end_pos) in *.
  assert (Hdata : length data = N.to_nat next_byte + 1).
  { unfold data. rewrite slice_length. lia. }
  exists (Run data :: tokens).
  rewrite wire_all_cons, <- Hdrop. cbn [wire controls payload app].
  subst ch. split_and!.
  - unfold chr. rewrite Hdata.
    replace (N.to_nat next_byte + 1 - 1) with (N.to_nat next_byte) by lia.
    rewrite N2Nat.id. cbn [app]. do 2 f_equal.
    replace (S (S pos)) with (pos + 1 + 1) by lia.
    apply drop_slice. lia.
  - constructor; [|done]. cbn. lia.
  - cbn [fmap list_fmap text_of]. by rewrite <- app_assoc.
Qed.

Lemma decompress_parses c t :
  bytes c -> decompress self c = Returns t ->
  exists tokens,
    c = wire_all tokens /\ Forall (decodable self) tokens /\
    t = text_of_all self tokens.
Proof.
  intros Hbytes. rewrite decompress_eq.
  destruct (decode_from self c 0 []) as [output| |] eqn:Hrun; [|done..].
  intros [= <-].
  apply decode_from_parses in Hrun as (tokens & Hdrop & Hall & ->);
    [|done|lia].
  exists tokens. by rewrite drop_0 in Hdrop.
Qed.

(** [decompress] returns a text or raises the [ValueError] that wraps the
    cause; there is no third case. *)
Lemma decompress_dichotomy c :
  (exists t, decompress self c = Returns t) \/ decode_error self c.
Proof.
  unfold decode_error. rewrite decompress_eq.
  pose proof (decode_from_total self c 0 []) as Htotal.
  destruct (decode_from self c 0 []) as [output|e|]; [|by eauto|done].
  left. by eexists.
Qed.

(** The wire form of decodable tokens can be read in one way only. *)
Lemma wire_all_inj tokens tokens' :
  Forall (decodable self) tokens -> Forall (decodable self) tokens' ->
  wire_all tokens = wire_all tokens' -> tokens = tokens'.
Proof.
  intros Hall. revert tokens'.
  induction Hall as [|tk tokens Htk _ IH]; intros tokens' Hall' Heq.
  - destruct Hall' as [|tk' tokens' _ _]; [done|].
    rewrite wire_all_cons in Heq. by destruct tk'.
  - destruct Hall' as [|tk' tokens' Htk' Hall'].
    { rewrite wire_all_cons in Heq. by destruct tk. }
    rewrite !wire_all_cons in Heq.
    destruct tk as [i|b|data], tk' as [i'|b'|data'];
      cbn [wire controls payload app decodable] in *; unfold chr in *;
      try (exfalso; injection Heq as Hhead; lia).
    + injection Heq as Hhead Htail.
      apply Nat2N.inj in Hhead as ->. f_equal. by apply IH.
    + injection Heq as -> Htail. f_equal. by apply IH.
    + injection Heq as Hlen Htail.
      apply Nat2N.inj in Hlen.
      apply app_inj_1 in Htail as [-> Htail]; [|lia].
      f_equal. by apply IH.
Qed.

End Decoder_grammar.

(** ** Streams that the decoder rejects *)

Section Rejected.

Variable self : codec.

Implicit Types (pre rest : str) (out : list str).

Lemma reject_index pre ch rest out :
  (ch < 254)%N -> DECODE self !! N.to_nat ch = None ->
  decode_from self (pre ++ ch :: rest) (length pre) out = Raises IndexError.
Proof.
  intros Hch Hnone. rewrite decode_from_eq.
  destruct (Nat.ltb_spec (length pre) (length (pre ++ ch :: rest)))
    as [_|Hge]; [|rewrite length_app in Hge; cbn in Hge; lia].
  rewrite list_lookup_middle by done.
  destruct (N.ltb_spec ch 254); [|lia]. by rewrite Hnone.
Qed.

Lemma reject_escape_at_end pre ch out :
  (254 <= ch)%N ->
  decode_from self (pre ++ [ch]) (length pre) out = Raises IndexError.
Proof.
  intros Hch. rewrite decode_from_eq.
  destruct (Nat.ltb_spec (length pre) (length (pre ++ [ch])))
    as [_|Hge]; [|rewrite length_app in Hge; cbn in Hge; lia].
  rewrite list_lookup_middle by done.
  destruct (N.ltb_spec ch 254); [lia|].
  by rewrite lookup_app_plus.
Qed.

Lemma reject_overflow pre L rest out :
  length rest < N.to_nat L + 1 ->
  decode_from self (pre ++ 255%N :: L :: rest) (length pre) out
  = Raises (ValueError "Desbordamiento de buffer").
Proof.
  intros Hshort. rewrite decode_from_eq.
  destruct (Nat.ltb_spec (length pre) (length (pre ++ 255%N :: L :: rest)))
    as [_|Hge]; [|rewrite length_app in Hge; cbn in Hge; lia].
  rewrite list_lookup_middle by done.
  change (255 <? 254)%N with false. change (255 =? 254)%N with false.
  rewrite lookup_app_plus. cbn [lookup list_lookup]. cbv iota zeta.
  match goal with
  | |- context [?a <? ?b] => destruct (Nat.ltb_spec a b) as [_|Hfits]
  end; [done|].
  rewrite length_app in Hfits. cbn [length] in Hfits. lia.
Qed.

End Rejected.

(** C3.  Malformed and truncated streams.  [decompress] either returns the
    whole text or raises the [ValueError] that wraps the cause; it never lets
    an [IndexError] through and never returns part of the text.  A stream of
    bytes that is not the wire form of decodable tokens is rejected.  After
    any decodable tokens, each of these is rejected: an index below 254 that
    [DECODE] does not hold, an escape byte 254 or 255 at the very end, and a
    run header whose end lies beyond the stream; [[255; 10]] is such a
    stream. *)
Theorem malformed_stream_rejected self :
  (forall c, (exists t, decompress self c = Returns t) \/ decode_error self c) /\
  (forall c,
     bytes c ->
     ~ (exists tokens, c = wire_all tokens /\ Forall (decodable self) tokens) ->
     decode_error self c) /\
  (forall tokens ch rest,
     Forall (decodable self) tokens ->
     (ch < 254)%N -> DECODE self !! N.to_nat ch = None ->
     decompress self (wire_all tokens ++ ch :: rest)
     = Raises (ValueError_from "Error de descompresión: {}" IndexError)) /\
  (forall tokens ch,
     Forall (decodable self) tokens ->
     ch = 254%N \/ ch = 255%N ->
     decompress self (wire_all tokens ++ [ch])
     = Raises (ValueError_from "Error de descompresión: {}" IndexError)) /\
  (forall tokens L rest,
     Forall (decodable self) tokens ->
     length rest < N.to_nat L + 1 ->
     decompress self (wire_all tokens ++ 255%N :: L :: rest)
     = Raises (ValueError_from "Error de descompresión: {}"
                 (ValueError "Desbordamiento de buffer"))) /\
  decompress self [255; 10]%N
  = Raises (ValueError_from "Error de descompresión: {}"
              (ValueError "Desbordamiento de buffer")).
Proof.
  split_and!.
  - apply decompress_dichotomy.
  - intros c Hbytes Hnot.
    destruct (decompress_dichotomy self c) as [[t Ht]|Herr]; [|done].
    destruct Hnot.
    apply decompress_parses in Ht as (tokens & -> & Hall & _); [|done].
    by exists tokens.
  - intros tokens ch rest Hall Hch Hnone.
    apply decompress_after; [done|]. intros out. by apply reject_index.
  - intros tokens ch Hall Hch.
    apply decompress_after; [done|]. intros out.
    apply reject_escape_at_end. lia.
  - intros tokens L rest Hall Hshort.
    apply decompress_after; [done|]. intros out. by apply reject_overflow.
  - reflexivity.
Qed.

Lemma malformed_stream_rejected_witness :
  Forall (decodable Smaz.instance) [Entry 1; Literal 88%N] /\
  length [101%N; 110%N] < N.to_nat 10 + 1 /\
  decompress Smaz.instance
    (wire_all [Entry 1; Literal 88%N] ++ [255; 10; 101; 110]%N)
  = Raises (ValueError_from "Error de descompresión: {}"
              (ValueError "Desbordamiento de buffer")).
Proof.
  assert (Hall : Forall (decodable Smaz.instance) [Entry 1; Literal 88%N]).
  { apply Forall_cons. split; [|by apply Forall_singleton].
    split; [lia|]. by exists (s "the"). }
  assert (Hshort : length [101%N; 110%N] < N.to_nat 10 + 1) by (vm_compute; lia).
  split_and!; [done|done|].
  exact (proj1 (proj2 (proj2 (proj2 (proj2
           (malformed_stream_rejected Smaz.instance)))))
           [Entry 1; Literal 88%N] 10%N [101%N; 110%N] Hall Hshort).
Defined.

(** ** The two classes *)

Lemma Smaz_compress_spec D text check_ascii :
  length D <= 254 -> accepted check_ascii text ->
  exists tokens,
    Smaz.compress (Smaz.init D) text check_ascii = Returns (wire_all tokens) /\
    Forall (emitted (Smaz.init D)) tokens /\
    text_of_all (Smaz.init D) tokens = text /\
    length (wire_all tokens) <= _worst_size (length text).
Proof.
  intros HD Hacc. rewrite Smaz_compress_accepted by done.
  by apply compress_body_spec, Smaz_lookup_sound.
Qed.

Lemma Multilang_compress_spec D text check_ascii :
  accepted check_ascii text ->
  exists tokens,
    SmazMultilang.compress (SmazMultilang.init D) text check_ascii
    = Returns (wire_all tokens) /\
    Forall (emitted (SmazMultilang.init D)) tokens /\
    text_of_all (SmazMultilang.init D) tokens = text /\
    length (wire_all tokens) <= _worst_size (length text).
Proof.
  intros Hacc. rewrite Multilang_compress_accepted by done.
  apply compress_body_spec, Multilang_lookup_sound.
Qed.

(** An entry of more than seven characters is not among emitted tokens. *)
Lemma emitted_short self tokens i sub :
  Forall (emitted self) tokens ->
  DECODE self !! i = Some sub -> 7 < length sub -> Entry i ∉ tokens.
Proof.
  intros Hall Hsub Hlong Hin.
  rewrite Forall_forall in Hall. specialize (Hall _ Hin).
  destruct Hall as (sub' & _ & Hsub' & _ & Hlen). simplify_eq. lia.
Qed.

(** However a returned stream is split into tokens the decoder accepts,
    these are the tokens the encoder wrote. *)
Lemma Smaz_compress_parse D text check_ascii tokens :
  length D <= 254 ->
  Smaz.compress (Smaz.init D) text check_ascii = Returns (wire_all tokens) ->
  Forall (decodable (Smaz.init D)) tokens ->
  Forall (emitted (Smaz.init D)) tokens /\
  text_of_all (Smaz.init D) tokens = text.
Proof.
  intros HD Hc Hdec.
  assert (Hacc : accepted check_ascii text).
  { intros ->. destruct (decide (ascii_text text)) as [|Hnot]; [done|].
    by rewrite Smaz_compress_rejected in Hc. }
  destruct (Smaz_compress_spec D text check_ascii HD Hacc)
    as (tokens' & Hc' & Hem & Htext & _).
  rewrite Hc in Hc'. injection Hc' as Heq.
  apply (wire_all_inj (Smaz.init D)) in Heq; [by subst|done|].
  eapply Forall_impl; [done|]. apply emitted_decodable.
Qed.

Lemma Multilang_compress_parse D text check_ascii tokens :
  SmazMultilang.compress (SmazMultilang.init D) text check_ascii
  = Returns (wire_all tokens) ->
  Forall (decodable (SmazMultilang.init D)) tokens ->
  Forall (emitted (SmazMultilang.init D)) tokens /\
  text_of_all (SmazMultilang.init D) tokens = text.
Proof.
  intros Hc Hdec.
  assert (Hacc : accepted check_ascii text).
  { intros ->. destruct (decide (ascii_text text)) as [|Hnot]; [done|].
    by rewrite Multilang_compress_rejected in Hc. }
  destruct (Multilang_compress_spec D text check_ascii Hacc)
    as (tokens' & Hc' & Hem & Htext & _).
  rewrite Hc in Hc'. injection Hc' as Heq.
  apply (wire_all_inj (SmazMultilang.init D)) in Heq; [by subst|done|].
  eapply Forall_impl; [done|]. apply emitted_decodable.
Qed.

(** C2.  Bounded expansion.  [_worst_size] is the bound of the
    specification: 0 for 0, 2 for 1, and otherwise
    [n + 2*(n // 255) + (2 if n % 255 != 0 else 0)].  Whenever [compress]
    accepts a text, the stream it returns is no longer than the bound for the
    length of the text.  The encapsulated form is itself within the bound, and
    it is what [compress] returns when the token stream is longer than the
    bound; otherwise the token stream is returned. *)
Theorem bounded_expansion :
  (forall n, _worst_size n = worstCaseSize n) /\
  (forall D text check_ascii,
     length D <= 254 -> accepted check_ascii text ->
     exists c, Smaz.compress (Smaz.init D) text check_ascii = Returns c /\
               length c <= worstCaseSize (length text)) /\
  (forall D text check_ascii,
     accepted check_ascii text ->
     exists c,
       SmazMultilang.compress (SmazMultilang.init D) text check_ascii
       = Returns c /\
       length c <= worstCaseSize (length text)) /\
  (forall text, length (_encapsulate text) <= worstCaseSize (length text)) /\
  (forall self text output,
     compress_tokens self text = Returns output ->
     compress_body self text
     = Returns (if worstCaseSize (length text) <? length (concat output)
                then _encapsulate text else concat output)).
Proof.
  split_and!.
  - apply worst_size_spec.
  - intros D text check_ascii HD Hacc.
    destruct (Smaz_compress_spec D text check_ascii HD Hacc)
      as (tokens & Hc & _ & _ & Hlen).
    exists (wire_all tokens). by rewrite <- worst_size_spec.
  - intros D text check_ascii Hacc.
    destruct (Multilang_compress_spec D text check_ascii Hacc)
      as (tokens & Hc & _ & _ & Hlen).
    exists (wire_all tokens). by rewrite <- worst_size_spec.
  - intros text. rewrite <- worst_size_spec.
    by destruct (encapsulate_spec (Codec [] ∅) text)
      as (tokens & -> & _ & _ & _ & Hlen).
  - intros self text output Hout. unfold compress_body. rewrite Hout.
    cbn [mbind outcome_bind mret outcome_ret]. rewrite <- worst_size_spec.
    by destruct (_ <? _).
Qed.

Lemma bounded_expansion_witness :
  length Smaz.DECODE <= 254 /\ accepted true (s "XaXaXa") /\
  exists c, Smaz.compress (Smaz.init Smaz.DECODE) (s "XaXaXa") true
            = Returns c /\
            length c <= worstCaseSize (length (s "XaXaXa")).
Proof.
  assert (Hlen : length Smaz.DECODE <= 254) by (vm_compute; lia).
  assert (Hacc : accepted true (s "XaXaXa"))
    by (intros _; repeat constructor).
  split_and!; [done|done|].
  exact (proj1 (proj2 bounded_expansion) Smaz.DECODE (s "XaXaXa") true
           Hlen Hacc).
Defined.

(** ** The greedy choice of the loop *)

Section Greedy.

Variable self : codec.

Implicit Types (text : str) (verbatim : list char) (output : list str).

(** The scan finds the longest match. *)
Lemma find_match_longest text pos n code :
  longest_match self text pos n code ->
  find_match self text pos (min 7 (length text - pos)) = (Some code, n).
Proof.
  intros (Hn & Hcode & Hlonger).
  pose proof (find_match_spec self text pos (min 7 (length text - pos)))
    as Hspec.
  destruct (find_match self text pos (min 7 (length text - pos)))
    as [[code'|] n'].
  - destruct Hspec as (Hn' & Hcode' & Hlonger').
    destruct (Nat.lt_trichotomy n n') as [Hlt|[->|Hgt]].
    + rewrite Hlonger in Hcode' by lia. done.
    + by simplify_eq.
    + rewrite Hlonger' in Hcode by lia. done.
  - destruct Hspec as (_ & Hnone). rewrite Hnone in Hcode by lia. done.
Qed.

Lemma find_match_unmatched text pos :
  unmatched self text pos ->
  find_match self text pos (min 7 (length text - pos)) = (None, 0).
Proof. intros Hnone. by apply find_match_none. Qed.

(** An iteration at a position with a match flushes the buffer, writes the
    value of the longest match and moves on by its length. *)
Lemma match_step fuel text pos verbatim output n code :
  pos < length text -> longest_match self text pos n code -> code <> [] ->
  compress_loop self (S fuel) text (length text) pos verbatim output
  = compress_loop self fuel text (length text) (pos + n) []
      ((_flush_verbatim verbatim output).2 ++ [code]).
Proof.
  intros Hpos Hlongest Hcode. cbn [compress_loop].
  destruct (Nat.ltb_spec pos (length text)); [|lia].
  rewrite (find_match_longest text pos n code Hlongest).
  destruct code as [|c code]; [done|]. cbn [truthy default].
  pose proof (flush_clears verbatim output) as Hclear.
  destruct (_flush_verbatim verbatim output) as [verbatim' output'].
  cbn [fst snd] in *. by subst verbatim'.
Qed.

(** An iteration at a position without a match moves one character to the
    buffer, and flushes the buffer when that makes 255. *)
Lemma unmatched_step fuel text pos verbatim output ch :
  pos < length text -> unmatched self text pos -> text !! pos = Some ch ->
  compress_loop self (S fuel) text (length text) pos verbatim output
  = if length (verbatim ++ [ch]) =? 255 then
      compress_loop self fuel text (length text) (pos + 1) []
        (_flush_verbatim (verbatim ++ [ch]) output).2
    else
      compress_loop self fuel text (length text) (pos + 1) (verbatim ++ [ch])
        output.
Proof.
  intros Hpos Hnone Hch. cbn [compress_loop].
  destruct (Nat.ltb_spec pos (length text)); [|lia].
  rewrite (find_match_unmatched text pos Hnone). cbn [truthy].
  rewrite Hch. cbv zeta.
  destruct (length (verbatim ++ [ch]) =? 255); [|done].
  pose proof (flush_clears (verbatim ++ [ch]) output) as Hclear.
  destruct (_flush_verbatim (verbatim ++ [ch]) output) as [verbatim' output'].
  cbn [fst snd] in *. by subst verbatim'.
Qed.

Lemma greedy_at_app text pos tokens tokens' :
  greedy_at self text pos (tokens ++ tokens') <->
  greedy_at self text pos tokens /\
  greedy_at self text (pos + length (text_of_all self tokens)) tokens'.
Proof.
  revert pos. induction tokens as [|tk tokens IH]; intros pos.
  - cbn. rewrite Nat.add_0_r. tauto.
  - change (text_of_all self (tk :: tokens))
      with (text_of self tk ++ text_of_all self tokens).
    cbn [app greedy_at]. rewrite IH, length_app, Nat.add_assoc. tauto.
Qed.

(** The token that a flush writes is greedy where the buffer began, when
    nothing matches at the positions of the buffer. *)
Lemma flush_tokens_greedy text pos verbatim :
  (forall k, k < length verbatim -> unmatched self text (pos + k)) ->
  greedy_at self text pos (flush_tokens verbatim).
Proof.
  intros Hnone. destruct verbatim as [|b0 [|b1 verbatim]]; cbn; [done|..];
    split; done.
Qed.

Hypothesis Hsound : lookup_sound self.

(** The invariant of the loop, with the greedy choice: the tokens written so
    far are greedy from the start of the text, and nothing matches at the
    positions of the pending literals. *)
Lemma compress_loop_greedy text fuel pos verbatim output tokens :
  length text - pos <= fuel -> pos <= length text ->
  concat output = wire_all tokens ->
  Forall (emitted self) tokens ->
  greedy_at self text 0 tokens ->
  text_of_all self tokens ++ verbatim = slice text 0 pos ->
  (forall k, k < length verbatim ->
     unmatched self text (length (text_of_all self tokens) + k)) ->
  length verbatim < 255 ->
  exists verbatim' output' tokens',
    compress_loop self fuel text (length text) pos verbatim output
    = Returns (verbatim', output') /\
    concat output' = wire_all tokens' /\
    Forall (emitted self) tokens' /\
    greedy_at self text 0 tokens' /\
    text_of_all self tokens' ++ verbatim' = text /\
    (forall k, k < length verbatim' ->
       unmatched self text (length (text_of_all self tokens') + k)) /\
    length verbatim' < 255.
Proof.
  revert pos verbatim output tokens.
  induction fuel as [|fuel IH]; intros pos verbatim output tokens
    Hfuel Hpos Hout Hem Hgreedy Htext Hpending Hlen.
  { exists verbatim, output, tokens. cbn [compress_loop].
    destruct (Nat.ltb_spec pos (length text)); [lia|].
    replace pos with (length text) in Htext by lia.
    by rewrite slice_all in Htext. }
  destruct (Nat.ltb_spec pos (length text)) as [Hlt|Hge]; last first.
  { exists verbatim, output, tokens. cbn [compress_loop].
    destruct (Nat.ltb_spec pos (length text)); [lia|].
    replace pos with (length text) in Htext by lia.
    by rewrite slice_all in Htext. }
  assert (Hcovered : length (text_of_all self tokens) + length verbatim = pos).
  { apply (f_equal length) in Htext.
    rewrite length_app, slice_length in Htext. lia. }
  pose proof (find_match_spec self text pos (min 7 (length text - pos)))
    as Hfind.
  destruct (find_match self text pos (min 7 (length text - pos)))
    as [[code|] best_len] eqn:Hscan.
  - destruct Hfind as (Hbest & Hcode & Hlonger).
    destruct (Hsound _ _ Hcode) as (i & -> & Hi & Hentry).
    rewrite (match_step fuel text pos verbatim output best_len [chr i]);
      [|done|done|done].
    destruct (flush_spec verbatim output) as (output1 & Hflush & Hout1).
    rewrite Hflush. cbn [snd].
    assert (Hsub : length (slice text pos (pos + best_len)) = best_len)
      by (rewrite slice_length; lia).
    apply (IH _ _ _ (tokens ++ flush_tokens verbatim ++ [Entry i])); try lia.
    + rewrite concat_app, Hout1, Hout, !wire_all_app, wire_all_singleton.
      cbn. by rewrite <- !app_assoc.
    + rewrite !Forall_app. split_and!; [done|apply flush_tokens_emitted; lia|].
      apply Forall_singleton. cbn [emitted].
      eexists. split_and!; [done|done|done|..]; lia.
    + rewrite !greedy_at_app. split_and!; [done|..].
      * by apply flush_tokens_greedy.
      * rewrite flush_tokens_text. cbn [greedy_at token_greedy text_of].
        rewrite Hentry. cbn [default id]. rewrite Hsub.
        replace (0 + length (text_of_all self tokens) + length verbatim)
          with pos by lia.
        done.
    + rewrite !text_of_all_app, flush_tokens_text, text_of_all_singleton.
      cbn [text_of]. rewrite Hentry. cbn [default].
      rewrite (app_assoc _ verbatim), Htext, app_nil_r.
      apply slice_join; lia.
    + intros k Hk. cbn in Hk. lia.
    + cbn. lia.
  - destruct Hfind as (_ & Hnone). clear Hscan.
    assert (Hunmatched : unmatched self text pos) by done.
    destruct (lookup_lt_is_Some_2 text pos Hlt) as [ch Hch].
    rewrite (unmatched_step fuel text pos verbatim output ch) by done.
    assert (Hnext : text_of_all self tokens ++ verbatim ++ [ch]
                    = slice text 0 (pos + 1)).
    { rewrite app_assoc, Htext. by apply slice_snoc; [lia|]. }
    assert (Hpending' : forall k, k < length (verbatim ++ [ch]) ->
              unmatched self text (length (text_of_all self tokens) + k)).
    { intros k Hk. rewrite length_app in Hk. cbn in Hk.
      destruct (decide (k < length verbatim)) as [|Hlast];
        [by apply Hpending|].
      by replace (length (text_of_all self tokens) + k) with pos by lia. }
    rewrite length_app. cbn [length].
    destruct (Nat.eqb_spec (length verbatim + 1) 255) as [Hfull|Hroom].
    + destruct (flush_spec (verbatim ++ [ch]) output)
        as (output1 & Hflush & Hout1).
      rewrite Hflush. cbn [snd].
      apply (IH _ _ _ (tokens ++ flush_tokens (verbatim ++ [ch]))); try lia.
      * by rewrite Hout1, Hout, wire_all_app.
      * rewrite Forall_app. split; [done|]. apply flush_tokens_emitted.
        rewrite length_app. cbn. lia.
      * rewrite greedy_at_app. split; [done|].
        by apply flush_tokens_greedy.
      * by rewrite text_of_all_app, flush_tokens_text, app_nil_r.
      * intros k Hk. cbn in Hk. lia.
      * cbn. lia.
    + apply (IH _ _ _ tokens); try done; try lia.
      rewrite length_app. cbn. lia.
Qed.

(** The tokens of [compress] before the size check are greedy. *)
Lemma compress_tokens_greedy text :
  exists output tokens,
    compress_tokens self text = Returns output /\
    concat output = wire_all tokens /\
    Forall (emitted self) tokens /\
    greedy_at self text 0 tokens /\
    text_of_all self tokens = text.
Proof.
  unfold compress_tokens.
  destruct (compress_loop_greedy text (length text) 0 [] [] [])
    as (verbatim & output & tokens & -> & Hout & Hem & Hgreedy & Htext
        & Hpending & Hlen);
    [lia|lia|done|done|done|done|cbn; lia|cbn; lia|].
  cbn [mbind outcome_bind].
  destruct (flush_spec verbatim output) as (output1 & -> & Hout1).
  exists output1, (tokens ++ flush_tokens verbatim). split_and!.
  - done.
  - by rewrite Hout1, Hout, wire_all_app.
  - rewrite Forall_app. split; [done|]. apply flush_tokens_emitted. lia.
  - rewrite greedy_at_app. split; [done|]. by apply flush_tokens_greedy.
  - by rewrite text_of_all_app, flush_tokens_text.
Qed.

(** [compress] from the ASCII check on: the greedy tokens, or the
    encapsulated text when they are longer than the bound. *)
Lemma compress_body_greedy text :
  exists tokens,
    greedy_at self text 0 tokens /\
    Forall (emitted self) tokens /\
    text_of_all self tokens = text /\
    compress_body self text
    = Returns (if _worst_size (length text) <? length (wire_all tokens)
               then _encapsulate text else wire_all tokens).
Proof.
  destruct (compress_tokens_greedy text)
    as (output & tokens & Hc & Hout & Hem & Hgreedy & Htext).
  exists tokens. split_and!; [done..|].
  unfold compress_body. rewrite Hc.
  cbn [mbind outcome_bind mret outcome_ret]. rewrite Hout.
  by destruct (_ <? _).
Qed.

End Greedy.

(** C4.  The greedy choice over seven characters.  At a position the scan
    tries the windows of [min(7, remaining)] characters down to one and
    yields the first, hence the longest, that is a key of [_lookup]; it
    yields nothing exactly when none of them is.  The loop acts on it: at a
    position where some window is a key, the iteration flushes the buffer,
    writes the value of the longest such window and moves on by its length;
    where none is, it moves one character to the buffer.  So [compress]
    returns the wire form of tokens that are greedy from the start of the
    text (an index only for the longest match at its position, literals
    only at positions without a match) or, when that is longer than the
    bound, the encapsulated text.  The index of an entry of more than seven
    characters is in no stream that [compress] returns, however the stream
    is split into tokens the decoder accepts.  [Smaz] compresses [the] to
    its one index 1, not to the indices of its letters; the multilingual
    table holds [https://] at index 233, with that key in [_lookup], and
    [compress] of that very text writes eight one-character entries. *)
Theorem greedy_window :
  (forall self text pos,
     match find_match self text pos (min 7 (length text - pos)) with
     | (Some code, best_len) =>
         1 <= best_len <= min 7 (length text - pos) /\
         _lookup self !! slice text pos (pos + best_len) = Some code /\
         forall n, best_len < n <= min 7 (length text - pos) ->
           _lookup self !! slice text pos (pos + n) = None
     | (None, best_len) =>
         best_len = 0 /\
         forall n, 1 <= n <= min 7 (length text - pos) ->
           _lookup self !! slice text pos (pos + n) = None
     end) /\
  (forall self fuel text pos verbatim output n code,
     pos < length text -> longest_match self text pos n code -> code <> [] ->
     compress_loop self (S fuel) text (length text) pos verbatim output
     = compress_loop self fuel text (length text) (pos + n) []
         ((_flush_verbatim verbatim output).2 ++ [code])) /\
  (forall self fuel text pos verbatim output ch,
     pos < length text -> unmatched self text pos -> text !! pos = Some ch ->
     compress_loop self (S fuel) text (length text) pos verbatim output
     = if length (verbatim ++ [ch]) =? 255 then
         compress_loop self fuel text (length text) (pos + 1) []
           (_flush_verbatim (verbatim ++ [ch]) output).2
       else
         compress_loop self fuel text (length text) (pos + 1)
           (verbatim ++ [ch]) output) /\
  (forall D text check_ascii,
     length D <= 254 -> accepted check_ascii text ->
     exists tokens,
       greedy_at (Smaz.init D) text 0 tokens /\
       Forall (emitted (Smaz.init D)) tokens /\
       text_of_all (Smaz.init D) tokens = text /\
       Smaz.compress (Smaz.init D) text check_ascii
       = Returns (if _worst_size (length text) <? length (wire_all tokens)
                  then _encapsulate text else wire_all tokens)) /\
  (forall D text check_ascii,
     accepted check_ascii text ->
     exists tokens,
       greedy_at (SmazMultilang.init D) text 0 tokens /\
       Forall (emitted (SmazMultilang.init D)) tokens /\
       text_of_all (SmazMultilang.init D) tokens = text /\
       SmazMultilang.compress (SmazMultilang.init D) text check_ascii
       = Returns (if _worst_size (length text) <? length (wire_all tokens)
                  then _encapsulate text else wire_all tokens)) /\
  (forall D text check_ascii tokens i sub,
     length D <= 254 ->
     Smaz.compress (Smaz.init D) text check_ascii = Returns (wire_all tokens) ->
     Forall (decodable (Smaz.init D)) tokens ->
     D !! i = Some sub -> 7 < length sub -> Entry i ∉ tokens) /\
  (forall D text check_ascii tokens i sub,
     SmazMultilang.compress (SmazMultilang.init D) text check_ascii
     = Returns (wire_all tokens) ->
     Forall (decodable (SmazMultilang.init D)) tokens ->
     D !! i = Some sub -> 7 < length sub -> Entry i ∉ tokens) /\
  (Smaz.compress Smaz.instance (s "the") true = Returns (wire_all [Entry 1]) /\
   Smaz.compress Smaz.instance (s "the") true
   <> Returns (wire_all [Entry 3; Entry 18; Entry 2])) /\
  (SmazMultilang.DECODE !! 233 = Some (s "https://") /\
   _lookup SmazMultilang.instance !! s "https://" = Some [chr 233] /\
   SmazMultilang.compress SmazMultilang.instance (s "https://") false
   = Returns (wire_all [Entry 20; Entry 9; Entry 9; Entry 14; Entry 6;
                        Entry 205; Entry 212; Entry 212])).
Proof.
  split_and!.
  - intros self text pos. apply find_match_spec.
  - intros self. apply match_step.
  - intros self. apply unmatched_step.
  - intros D text check_ascii HD Hacc.
    rewrite Smaz_compress_accepted by done.
    by apply compress_body_greedy, Smaz_lookup_sound.
  - intros D text check_ascii Hacc.
    rewrite Multilang_compress_accepted by done.
    apply compress_body_greedy, Multilang_lookup_sound.
  - intros D text check_ascii tokens i sub HD Hc Hdec Hsub Hlong.
    destruct (Smaz_compress_parse D text check_ascii tokens) as [Hem _];
      [done..|].
    by eapply emitted_short.
  - intros D text check_ascii tokens i sub Hc Hdec Hsub Hlong.
    destruct (Multilang_compress_parse D text check_ascii tokens) as [Hem _];
      [done..|].
    by eapply emitted_short.
  - by vm_compute.
  - by vm_compute.
  - by vm_compute.
  - by vm_compute.
  - by vm_compute.
Qed.

Lemma greedy_window_witness :
  (0 < length (s "the end") /\
   longest_match Smaz.instance (s "the end") 0 3 [1%N] /\
   [1%N] <> [] /\
   compress_loop Smaz.instance 7 (s "the end") (length (s "the end")) 0 [] []
   = compress_loop Smaz.instance 6 (s "the end") (length (s "the end"))
       (0 + 3) [] ((_flush_verbatim [] []).2 ++ [[1%N]])) /\
  (SmazMultilang.compress (SmazMultilang.init SmazMultilang.DECODE)
     (s "https://") false
   = Returns (wire_all [Entry 20; Entry 9; Entry 9; Entry 14; Entry 6;
                        Entry 205; Entry 212; Entry 212]) /\
   Forall (decodable (SmazMultilang.init SmazMultilang.DECODE))
     [Entry 20; Entry 9; Entry 9; Entry 14; Entry 6;
      Entry 205; Entry 212; Entry 212] /\
   SmazMultilang.DECODE !! 233 = Some (s "https://") /\
   7 < length (s "https://") /\
   Entry 233 ∉ [Entry 20; Entry 9; Entry 9; Entry 14; Entry 6;
                Entry 205; Entry 212; Entry 212]).
Proof.
  destruct greedy_window as (_ & Hstep & _ & _ & _ & _ & Hnever & _).
  assert (Hpos : 0 < length (s "the end")) by (vm_compute; lia).
  assert (Hlongest : longest_match Smaz.instance (s "the end") 0 3 [1%N]).
  { split_and!; [vm_compute; lia|vm_compute; lia|by vm_compute|].
    intros n' Hn'. change (min 7 (length (s "the end") - 0)) with 7 in Hn'.
    assert (n' = 4 \/ n' = 5 \/ n' = 6 \/ n' = 7) as [->|[->|[->| ->]]] by lia;
      by vm_compute. }
  assert (Hcode : [1%N] <> []) by done.
  assert (Hc : SmazMultilang.compress (SmazMultilang.init SmazMultilang.DECODE)
                 (s "https://") false
               = Returns (wire_all [Entry 20; Entry 9; Entry 9; Entry 14;
                                    Entry 6; Entry 205; Entry 212; Entry 212]))
    by (by vm_compute).
  assert (Hdec : Forall (decodable (SmazMultilang.init SmazMultilang.DECODE))
                   [Entry 20; Entry 9; Entry 9; Entry 14; Entry 6;
                    Entry 205; Entry 212; Entry 212]).
  { repeat (apply Forall_cons; split;
              [split; [lia|vm_compute; by eexists]|]).
    apply Forall_nil_2. }
  assert (Hsub : SmazMultilang.DECODE !! 233 = Some (s "https://"))
    by (by vm_compute).
  assert (Hlong : 7 < length (s "https://")) by (vm_compute; lia).
  split.
  - do 3 (split; [done|]).
    exact (Hstep Smaz.instance 6 (s "the end") 0 [] [] 3 [1%N]
             Hpos Hlongest Hcode).
  - do 4 (split; [done|]).
    exact (Hnever SmazMultilang.DECODE (s "https://") false _ 233
             (s "https://") Hc Hdec Hsub Hlong).
Defined.

(** ** Literal runs *)

Section Literal_runs.

Variable self : codec.

Implicit Types (text : str) (verbatim : list char) (output : list str).

(** An iteration that finds no match and fills the buffer to 255 flushes it
    at once. *)
Lemma full_buffer_step fuel text pos verbatim output ch :
  pos < length text ->
  truthy (find_match self text pos (min 7 (length text - pos))).1 = false ->
  text !! pos = Some ch ->
  length verbatim = 254 ->
  compress_loop self (S fuel) text (length text) pos verbatim output
  = compress_loop self fuel text (length text) (pos + 1) []
      (output ++ [[255%N; 254%N]; verbatim ++ [ch]]).
Proof.
  intros Hpos Hnone Hch Hlen. cbn [compress_loop].
  destruct (Nat.ltb_spec pos (length text)); [|lia].
  destruct (find_match self text pos (min 7 (length text - pos)))
    as [best_match best_len].
  cbn [fst] in Hnone. rewrite Hnone, Hch. cbv zeta.
  assert (Hfull : length (verbatim ++ [ch]) = 255)
    by (rewrite length_app; cbn; lia).
  rewrite Hfull. change (255 =? 255) with true. cbv iota.
  rewrite flush_run by lia. rewrite Hfull. done.
Qed.

(** An iteration that finds no match below that only extends the buffer. *)
Lemma literal_step fuel text pos verbatim output ch :
  pos < length text ->
  truthy (find_match self text pos (min 7 (length text - pos))).1 = false ->
  text !! pos = Some ch ->
  length verbatim < 254 ->
  compress_loop self (S fuel) text (length text) pos verbatim output
  = compress_loop self fuel text (length text) (pos + 1) (verbatim ++ [ch])
      output.
Proof.
  intros Hpos Hnone Hch Hlen. cbn [compress_loop].
  destruct (Nat.ltb_spec pos (length text)); [|lia].
  destruct (find_match self text pos (min 7 (length text - pos)))
    as [best_match best_len].
  cbn [fst] in Hnone. rewrite Hnone, Hch. cbv zeta.
  destruct (Nat.eqb_spec (length (verbatim ++ [ch])) 255) as [Hfull|]; [|done].
  rewrite length_app in Hfull. cbn in Hfull. lia.
Qed.

Lemma matchless_find text pos :
  matchless self text ->
  truthy (find_match self text pos (min 7 (length text - pos))).1 = false.
Proof.
  intros Hnone. rewrite find_match_none; [done|].
  intros n Hn. apply Hnone. lia.
Qed.

(** [k] iterations over a stretch without matches. *)
Lemma matchless_steps text k fuel pos verbatim output :
  matchless self text ->
  pos + k <= length text -> length verbatim + k < 255 ->
  compress_loop self (k + fuel) text (length text) pos verbatim output
  = compress_loop self fuel text (length text) (pos + k)
      (verbatim ++ slice text pos (pos + k)) output.
Proof.
  intros Hnone. revert pos verbatim.
  induction k as [|k IH]; intros pos verbatim Hpos Hlen.
  - unfold slice. rewrite Nat.add_0_r, Nat.sub_diag, take_0, app_nil_r. done.
  - destruct (lookup_lt_is_Some_2 text pos) as [ch Hch]; [lia|].
    cbn [Nat.add]. rewrite (literal_step _ _ _ _ _ ch);
      [|lia|by apply matchless_find|done|lia].
    rewrite IH; [|lia|rewrite length_app; cbn; lia].
    replace (pos + 1 + k) with (pos + S k) by lia.
    rewrite <- app_assoc. do 2 f_equal.
    rewrite <- (slice_join text pos (pos + 1) (pos + S k)) by lia.
    f_equal. unfold slice. replace (pos + 1 - pos) with 1 by lia.
    by erewrite take_S_r, take_0; [|rewrite lookup_drop, Nat.add_0_r].
Qed.

(** 300 characters without a match: two runs, of 255 and of 45. *)
Lemma matchless_300 text :
  length text = 300 -> matchless self text ->
  compress_tokens self text
  = Returns [[255%N; 254%N]; take 255 text; [255%N; 44%N]; drop 255 text].
Proof.
  intros Hlen Hnone. unfold compress_tokens. rewrite Hlen.
  change 300 with (254 + 46) at 1. rewrite <- Hlen at 1.
  rewrite matchless_steps by (done || cbn; lia).
  cbn [app]. rewrite !Nat.add_0_l.
  destruct (lookup_lt_is_Some_2 text 254) as [ch Hch]; [lia|].
  change 46 with (S 45).
  rewrite (full_buffer_step _ _ _ _ _ ch);
    [|lia|by apply matchless_find|done|rewrite slice_length; lia].
  cbn [app]. rewrite slice_snoc by (lia || done).
  replace (254 + 1) with 255 by lia.
  change 45 with (45 + 0) at 1.
  rewrite matchless_steps by (done || cbn; lia).
  cbn [compress_loop app].
  destruct (Nat.ltb_spec (255 + 45) (length text)); [lia|].
  cbn [mbind outcome_bind mret outcome_ret].
  rewrite flush_run by (rewrite slice_length; lia).
  rewrite slice_length.
  replace (min (255 + 45 - 255) (length text - 255)) with 45 by lia.
  unfold slice.
  replace (255 - 0) with 255 by lia.
  replace (255 + 45 - 255) with (length (drop 255 text))
    by (rewrite length_drop; lia).
  by rewrite drop_0, firstn_all.
Qed.

End Literal_runs.

Lemma matchless_X : matchless Smaz.instance (replicate 300 88%N).
Proof.
  intros pos n Hn. unfold slice. rewrite drop_replicate, take_replicate.
  assert (Hm : min (pos + n - pos) (300 - pos) <= 7) by lia.
  destruct (min (pos + n - pos) (300 - pos)) as [|[|[|[|[|[|[|[|m]]]]]]]];
    [by vm_compute..|lia].
Qed.

(** C5.  The flush rule.  An empty buffer writes nothing; a buffer of one
    character [b] writes [[254, b]]; a buffer of 2 to 255 characters writes
    [[255, length-1]] and then the characters; the buffer is empty after
    every flush.  An iteration that brings the buffer to 255 characters
    flushes it in that same iteration, so in a stream that [compress]
    returns every literal run has 2 to 255 characters.  A text of 300
    characters without any match gives two runs, of 255 and of 45
    characters; 300 times the letter X is such a text for [Smaz]. *)
Theorem flush_rule :
  (forall output, _flush_verbatim [] output = ([], output)) /\
  (forall b output,
     _flush_verbatim [b] output = ([], output ++ [[254%N; b]])) /\
  (forall buffer output,
     2 <= length buffer <= 255 ->
     _flush_verbatim buffer output
     = ([], output ++ [[255%N; N.of_nat (length buffer - 1)]; buffer])) /\
  (forall buffer output, (_flush_verbatim buffer output).1 = []) /\
  (forall self fuel text pos verbatim output ch,
     pos < length text ->
     truthy (find_match self text pos (min 7 (length text - pos))).1 = false ->
     text !! pos = Some ch ->
     length verbatim = 254 ->
     compress_loop self (S fuel) text (length text) pos verbatim output
     = compress_loop self fuel text (length text) (pos + 1) []
         (output ++ [[255%N; 254%N]; verbatim ++ [ch]])) /\
  (forall D text check_ascii tokens data,
     length D <= 254 ->
     Smaz.compress (Smaz.init D) text check_ascii = Returns (wire_all tokens) ->
     Forall (decodable (Smaz.init D)) tokens ->
     Run data ∈ tokens -> 2 <= length data <= 255) /\
  (forall D text check_ascii tokens data,
     SmazMultilang.compress (SmazMultilang.init D) text check_ascii
     = Returns (wire_all tokens) ->
     Forall (decodable (SmazMultilang.init D)) tokens ->
     Run data ∈ tokens -> 2 <= length data <= 255) /\
  (forall self text check_ascii,
     accepted check_ascii text ->
     length text = 300 -> matchless self text ->
     Smaz.compress self text check_ascii
     = Returns (wire_all [Run (take 255 text); Run (drop 255 text)]) /\
     SmazMultilang.compress self text check_ascii
     = Returns (wire_all [Run (take 255 text); Run (drop 255 text)])) /\
  Smaz.compress Smaz.instance (replicate 300 88%N) true
  = Returns (wire_all [Run (replicate 255 88%N); Run (replicate 45 88%N)]).
Proof.
  split_and!.
  - apply flush_empty.
  - apply flush_single.
  - intros buffer output Hlen. apply flush_run. lia.
  - apply flush_clears.
  - apply full_buffer_step.
  - intros D text check_ascii tokens data HD Hc Hdec Hin.
    destruct (Smaz_compress_parse D text check_ascii tokens) as [Hem _];
      [done..|].
    rewrite Forall_forall in Hem. apply (Hem _ Hin).
  - intros D text check_ascii tokens data Hc Hdec Hin.
    destruct (Multilang_compress_parse D text check_ascii tokens) as [Hem _];
      [done..|].
    rewrite Forall_forall in Hem. apply (Hem _ Hin).
  - intros self text check_ascii Hacc Hlen Hnone.
    rewrite Smaz_compress_accepted, Multilang_compress_accepted by done.
    assert (Hbody : compress_body self text
              = Returns (wire_all [Run (take 255 text); Run (drop 255 text)])).
    { unfold compress_body. rewrite matchless_300 by done.
      cbn [mbind outcome_bind mret outcome_ret].
      assert (H304 : length (concat [[255%N; 254%N]; take 255 text;
                                     [255%N; 44%N]; drop 255 text]) = 304).
      { cbn [concat]. rewrite !length_app, length_take, length_drop.
        cbn [length]. lia. }
      rewrite H304, Hlen.
      replace (_worst_size 300 <? 304) with false by (by vm_compute).
      unfold wire_all, wire, mret, outcome_ret.
      cbn [fmap list_fmap controls payload concat].
      rewrite length_take, length_drop, Hlen.
      replace (min 255 300 - 1) with 254 by lia.
      replace (300 - 255 - 1) with 44 by lia.
      unfold chr. by rewrite <- !app_assoc. }
    by rewrite Hbody.
  - by vm_compute.
Qed.

Lemma flush_rule_witness :
  accepted true (replicate 300 88%N) /\
  length (replicate 300 88%N) = 300 /\
  matchless Smaz.instance (replicate 300 88%N) /\
  Smaz.compress Smaz.instance (replicate 300 88%N) true
  = Returns (wire_all [Run (take 255 (replicate 300 88%N));
                       Run (drop 255 (replicate 300 88%N))]).
Proof.
  assert (Hacc : accepted true (replicate 300 88%N)).
  { intros _. apply Forall_replicate. by vm_compute. }
  assert (Hlen : length (replicate 300 88%N) = 300) by (by vm_compute).
  split_and!; [done|done|apply matchless_X|].
  destruct flush_rule as (_ & _ & _ & _ & _ & _ & _ & H300 & _).
  exact (proj1 (H300 Smaz.instance (replicate 300 88%N) true
                  Hacc Hlen matchless_X)).
Defined.

(** ** Which indices are dictionary tokens *)

(** The decoder reads [DECODE] at indices below 254 only. *)
Lemma decode_from_ext self self' c pos out :
  (forall i, i < 254 -> DECODE self !! i = DECODE self' !! i) ->
  decode_from self c pos out = decode_from self' c pos out.
Proof.
  intros Hsame. remember (length c - pos) as n eqn:Hn.
  revert pos out Hn. induction (lt_wf n) as [n _ IH]. intros pos out ->.
  rewrite (decode_from_eq self), (decode_from_eq self').
  destruct (Nat.ltb_spec pos (length c)) as [Hlt|Hge]; [|done].
  destruct (c !! pos) as [ch|]; [|done].
  destruct (N.ltb_spec ch 254) as [Hidx|Hesc].
  { rewrite Hsame by lia.
    destruct (DECODE self' !! N.to_nat ch); [|done].
    eapply IH; [|reflexivity]. lia. }
  destruct (c !! (pos + 1)) as [next_byte|]; [|done].
  destruct (ch =? 254)%N; [eapply IH; [|reflexivity]; lia|].
  cbv zeta.
  destruct (Nat.ltb_spec (length c) (pos + 1 + 1 + N.to_nat next_byte + 1));
    [done|eapply IH; [|reflexivity]; lia].
Qed.

Lemma decompress_ext self self' c :
  (forall i, i < 254 -> DECODE self !! i = DECODE self' !! i) ->
  decompress self c = decompress self' c.
Proof.
  intros Hsame. by rewrite !decompress_eq, (decode_from_ext self self').
Qed.

(** C6, as stated, fails: 253 is a dictionary index.  The table of [Smaz]
    holds [.com] at index 253; [compress] of [.com] returns the one-byte
    stream [[253]], a dictionary token, and [decompress] of [[253]] resolves
    it to [.com].  The multilingual class does the same with its entry 253,
    an opening brace. *)
Lemma index_253_is_a_dictionary_token :
  Smaz.DECODE !! 253 = Some (s ".com") /\
  Smaz.compress Smaz.instance (s ".com") true = Returns (wire_all [Entry 253]) /\
  wire_all [Entry 253] = [253%N] /\
  decompress Smaz.instance [253%N] = Returns (s ".com") /\
  ~ (forall text tokens,
       Smaz.compress Smaz.instance text true = Returns (wire_all tokens) ->
       Entry 253 ∉ tokens) /\
  SmazMultilang.compress SmazMultilang.instance (s "{") false
  = Returns [253%N] /\
  decompress SmazMultilang.instance [253%N] = Returns (s "{").
Proof.
  split_and!; try by vm_compute.
  intros Hnever. apply (Hnever (s ".com") [Entry 253]); [by vm_compute|].
  apply list_elem_of_here.
Qed.

(** C6, amended.  A dictionary token is one byte from 0 to 253; 254 and 255
    are the control codes and are never dictionary indices.  Every value that
    [_create_lookup] stores is [chr(i)] with [i <= 253] and [DECODE[i]] the
    key (for [SmazMultilang] with any table, for [Smaz] with a table of at
    most 254 entries, as its own is), so every dictionary token that
    [compress] writes is at most 253; [decompress] consults [DECODE] at
    indices below 254 only, and a stream that is the single byte 254 or 255
    is rejected whatever the table holds there. *)
Theorem dictionary_indices :
  (forall D sub code,
     _lookup (SmazMultilang.init D) !! sub = Some code ->
     exists i, code = [chr i] /\ i <= 253 /\ D !! i = Some sub) /\
  (forall D sub code,
     length D <= 254 ->
     _lookup (Smaz.init D) !! sub = Some code ->
     exists i, code = [chr i] /\ i <= 253 /\ D !! i = Some sub) /\
  (forall D text check_ascii,
     accepted check_ascii text ->
     exists tokens,
       SmazMultilang.compress (SmazMultilang.init D) text check_ascii
       = Returns (wire_all tokens) /\
       Forall (emitted (SmazMultilang.init D)) tokens /\
       forall i, Entry i ∈ tokens -> i <= 253) /\
  (forall D text check_ascii,
     length D <= 254 -> accepted check_ascii text ->
     exists tokens,
       Smaz.compress (Smaz.init D) text check_ascii
       = Returns (wire_all tokens) /\
       Forall (emitted (Smaz.init D)) tokens /\
       forall i, Entry i ∈ tokens -> i <= 253) /\
  (forall self self' c,
     (forall i, i <= 253 -> DECODE self !! i = DECODE self' !! i) ->
     decompress self c = decompress self' c) /\
  (forall self ch,
     ch = 254%N \/ ch = 255%N ->
     decompress self [ch]
     = Raises (ValueError_from "Error de descompresión: {}" IndexError)).
Proof.
  split_and!.
  - intros D sub code Hin.
    destruct (Multilang_lookup_sound D sub code Hin) as (i & -> & Hi & Hsub).
    exists i. split_and!; [done|lia|done].
  - intros D sub code HD Hin.
    destruct (Smaz_lookup_sound D HD sub code Hin) as (i & -> & Hi & Hsub).
    exists i. split_and!; [done|lia|done].
  - intros D text check_ascii Hacc.
    destruct (Multilang_compress_spec D text check_ascii Hacc)
      as (tokens & Hc & Hem & _).
    exists tokens. split_and!; [done..|].
    intros i Hin. rewrite Forall_forall in Hem.
    destruct (Hem _ Hin) as (sub & _ & _ & Hi & _). lia.
  - intros D text check_ascii HD Hacc.
    destruct (Smaz_compress_spec D text check_ascii HD Hacc)
      as (tokens & Hc & Hem & _).
    exists tokens. split_and!; [done..|].
    intros i Hin. rewrite Forall_forall in Hem.
    destruct (Hem _ Hin) as (sub & _ & _ & Hi & _). lia.
  - intros self self' c Hsame. apply decompress_ext.
    intros i Hi. apply Hsame. lia.
  - intros self ch Hch. rewrite decompress_eq.
    pose proof (reject_escape_at_end self [] ch []) as Hrej.
    cbn [app length] in Hrej. rewrite Hrej; [done|lia].
Qed.

Lemma dictionary_indices_witness :
  length Smaz.DECODE <= 254 /\
  _lookup (Smaz.init Smaz.DECODE) !! s ".com" = Some [253%N] /\
  exists i, [253%N] = [chr i] /\ i <= 253 /\ Smaz.DECODE !! i = Some (s ".com").
Proof.
  assert (Hlen : length Smaz.DECODE <= 254) by (vm_compute; lia).
  assert (Hin : _lookup (Smaz.init Smaz.DECODE) !! s ".com" = Some [253%N])
    by (by vm_compute).
  split_and!; [done|done|].
  exact (proj1 (proj2 dictionary_indices) Smaz.DECODE (s ".com") [253%N]
           Hlen Hin).
Defined.

(** ** Duplicate entries *)

(** A finite check that no later index below the cutoff holds [sub]. *)
Lemma no_later_copy (D : list str) sub j :
  forallb (fun j' => bool_decide (D !! j' <> Some sub)) (seq (S j) (254 - S j))
  = true ->
  forall j', j < j' -> j' < 254 -> D !! j' <> Some sub.
Proof.
  intros Hall j' Hlo Hhi. rewrite forallb_forall in Hall.
  assert (Hin : In j' (seq (S j) (254 - S j))) by (apply in_seq; lia).
  apply Hall in Hin. by apply bool_decide_eq_true in Hin.
Qed.

Lemma decompress_entry self j sub :
  j < 254 -> DECODE self !! j = Some sub ->
  decompress self [chr j] = Returns sub.
Proof.
  intros Hj Hsub.
  pose proof (decompress_decodable self [Entry j]) as Hdec.
  rewrite wire_all_singleton, text_of_all_singleton in Hdec.
  cbn [wire controls payload text_of app] in Hdec.
  rewrite Hsub in Hdec. apply Hdec, Forall_singleton.
  split; [done|by eexists].
Qed.

(** C9.  Duplicate entries.  When a value stands at several indices of the
    table, [_lookup] maps it to the largest of them below the cutoff of 254
    (last wins), and [decompress] of that index gives the value back, so the
    round trip holds whatever duplicates the table has.  In the multilingual
    table [das] stands at 152 and 154 and is mapped to 154, [dans] stands at
    142 and 161 and is mapped to 161, and [no] stands at 77 and 262 and is
    mapped to 77, the only copy below the cutoff. *)
Theorem duplicates_last_wins :
  (forall D sub j,
     D !! j = Some sub -> j < 254 ->
     (forall j', j < j' -> j' < 254 -> D !! j' <> Some sub) ->
     _lookup (SmazMultilang.init D) !! sub = Some [chr j] /\
     decompress (SmazMultilang.init D) [chr j] = Returns sub) /\
  (forall D text check_ascii,
     accepted check_ascii text ->
     exists c,
       SmazMultilang.compress (SmazMultilang.init D) text check_ascii
       = Returns c /\
       decompress (SmazMultilang.init D) c = Returns text) /\
  (SmazMultilang.DECODE !! 152 = Some (s "das") /\
   SmazMultilang.DECODE !! 154 = Some (s "das") /\
   _lookup SmazMultilang.instance !! s "das" = Some [chr 154]) /\
  (SmazMultilang.DECODE !! 142 = Some (s "dans") /\
   SmazMultilang.DECODE !! 161 = Some (s "dans") /\
   _lookup SmazMultilang.instance !! s "dans" = Some [chr 161]) /\
  (SmazMultilang.DECODE !! 77 = Some (s "no") /\
   SmazMultilang.DECODE !! 262 = Some (s "no") /\
   _lookup SmazMultilang.instance !! s "no" = Some [chr 77]) /\
  (SmazMultilang.compress SmazMultilang.instance (s "das dans") false
   = Returns [154; 0; 161]%N /\
   decompress SmazMultilang.instance [154; 0; 161]%N = Returns (s "das dans")).
Proof.
  split_and!; try by vm_compute.
  - intros D sub j Hsub Hj Hlast. split.
    + cbn [_lookup SmazMultilang.init].
      unfold SmazMultilang._create_lookup, enumerate.
      by rewrite (lookup_loop_last D 0 ∅ sub j).
    + by apply decompress_entry.
  - intros D text check_ascii Hacc.
    rewrite Multilang_compress_accepted by done.
    apply round_trip_body, Multilang_lookup_sound.
Qed.

Lemma duplicates_last_wins_witness :
  SmazMultilang.DECODE !! 154 = Some (s "das") /\ 154 < 254 /\
  (forall j', 154 < j' -> j' < 254 -> SmazMultilang.DECODE !! j' <> Some (s "das")) /\
  _lookup (SmazMultilang.init SmazMultilang.DECODE) !! s "das"
  = Some [chr 154] /\
  decompress (SmazMultilang.init SmazMultilang.DECODE) [chr 154]
  = Returns (s "das").
Proof.
  assert (Hsub : SmazMultilang.DECODE !! 154 = Some (s "das"))
    by (by vm_compute).
  assert (Hj : 154 < 254) by lia.
  assert (Hlast : forall j', 154 < j' -> j' < 254 ->
                    SmazMultilang.DECODE !! j' <> Some (s "das")).
  { apply no_later_copy. by vm_compute. }
  split_and!; [done|done|done|..];
    apply (proj1 duplicates_last_wins SmazMultilang.DECODE (s "das") 154
             Hsub Hj Hlast).
Defined.

(** ** Code points above 255 *)

Lemma emitted_controls self tk :
  emitted self tk -> Forall (fun ch => (ch <= 255)%N) (controls tk).
Proof.
  destruct tk as [i|b|data]; cbn [emitted controls]; unfold chr.
  - intros (sub & _ & _ & Hi & _). apply Forall_singleton. lia.
  - intros _. apply Forall_singleton. lia.
  - intros Hlen. apply Forall_cons. split; [lia|]. apply Forall_singleton. lia.
Qed.

(** C10.  Characters, not bytes.  With [check_ascii] unset, [compress]
    accepts any sequence of code points, also those of 256 and more.  The
    stream is the wire form of tokens whose control positions (index, escape,
    length) are at most 255, the texts of the tokens spell the input, so the
    characters of literals and of matched entries are carried as they are,
    and [decompress] gives the input back.  Examples with the euro sign
    (8364), an entry of the multilingual table, and the code point 20013,
    which no table holds. *)
Theorem code_points_carried :
  (forall D text,
     exists tokens,
       SmazMultilang.compress (SmazMultilang.init D) text false
       = Returns (wire_all tokens) /\
       Forall (fun tk => Forall (fun ch => (ch <= 255)%N) (controls tk)) tokens /\
       text_of_all (SmazMultilang.init D) tokens = text /\
       decompress (SmazMultilang.init D) (wire_all tokens) = Returns text) /\
  (forall D text,
     length D <= 254 ->
     exists tokens,
       Smaz.compress (Smaz.init D) text false = Returns (wire_all tokens) /\
       Forall (fun tk => Forall (fun ch => (ch <= 255)%N) (controls tk)) tokens /\
       text_of_all (Smaz.init D) tokens = text /\
       decompress (Smaz.init D) (wire_all tokens) = Returns text) /\
  (SmazMultilang.compress SmazMultilang.instance
     (s "das" ++ [8364; 20013]%N) false
   = Returns (wire_all [Entry 154; Entry 247; Literal 20013%N]) /\
   wire_all [Entry 154; Entry 247; Literal 20013%N] = [154; 247; 254; 20013]%N /\
   decompress SmazMultilang.instance [154; 247; 254; 20013]%N
   = Returns (s "das" ++ [8364; 20013]%N)) /\
  (Smaz.compress Smaz.instance (s "das" ++ [8364; 20013]%N) false
   = Returns (wire_all [Entry 24; Entry 46; Run [8364; 20013]%N]) /\
   wire_all [Entry 24; Entry 46; Run [8364; 20013]%N]
   = [24; 46; 255; 1; 8364; 20013]%N /\
   decompress Smaz.instance [24; 46; 255; 1; 8364; 20013]%N
   = Returns (s "das" ++ [8364; 20013]%N)).
Proof.
  split_and!; try by vm_compute.
  - intros D text.
    destruct (Multilang_compress_spec D text false) as (tokens & Hc & Hem & Htext & _);
      [done|].
    exists tokens. split_and!; [done| |done|].
    + eapply Forall_impl; [done|]. apply emitted_controls.
    + by rewrite decompress_tokens, Htext.
  - intros D text HD.
    destruct (Smaz_compress_spec D text false HD) as (tokens & Hc & Hem & Htext & _);
      [done|].
    exists tokens. split_and!; [done| |done|].
    + eapply Forall_impl; [done|]. apply emitted_controls.
    + by rewrite decompress_tokens, Htext.
Qed.

Lemma code_points_carried_witness :
  length Smaz.DECODE <= 254 /\
  exists tokens,
    Smaz.compress (Smaz.init Smaz.DECODE) [20013; 97; 8364]%N false
    = Returns (wire_all tokens) /\
    Forall (fun tk => Forall (fun ch => (ch <= 255)%N) (controls tk)) tokens /\
    text_of_all (Smaz.init Smaz.DECODE) tokens = [20013; 97; 8364]%N /\
    decompress (Smaz.init Smaz.DECODE) (wire_all tokens)
    = Returns [20013; 97; 8364]%N.
Proof.
  assert (Hlen : length Smaz.DECODE <= 254) by (vm_compute; lia).
  split; [done|].
  exact (proj1 (proj2 code_points_carried) Smaz.DECODE
           [20013; 97; 8364]%N Hlen).
Defined.

(** * Further properties of the codec *)

(** ** Streams laid end to end *)

Section Concatenation.

Variable self : codec.

Implicit Types (c pre rest : str) (out : list str).

(** The loop behaves on a stream as it does on that stream behind a
    prefix. *)
Lemma decode_from_shift pre c pos out :
  decode_from self (pre ++ c) (length pre + pos) out = decode_from self c pos out.
Proof.
  remember (length c - pos) as n eqn:Hn.
  revert pos out Hn. induction (lt_wf n) as [n _ IH]. intros pos out ->.
  rewrite (decode_from_eq self (pre ++ c)), (decode_from_eq self c).
  rewrite length_app, lookup_app_plus.
  destruct (Nat.ltb_spec pos (length c)) as [Hlt|Hge];
    destruct (Nat.ltb_spec (length pre + pos) (length pre + length c));
    try lia; [|done].
  destruct (c !! pos) as [ch|]; [|done].
  replace (length pre + pos + 1) with (length pre + (pos + 1)) by lia.
  destruct (ch <? 254)%N.
  { destruct (DECODE self !! N.to_nat ch); [|done].
    eapply IH; [|reflexivity]. lia. }
  rewrite lookup_app_plus.
  destruct (c !! (pos + 1)) as [next_byte|]; [|done].
  replace (length pre + (pos + 1) + 1) with (length pre + (pos + 1 + 1)) by lia.
  destruct (ch =? 254)%N; [eapply IH; [|reflexivity]; lia|].
  cbv zeta.
  replace (length pre + (pos + 1 + 1) + N.to_nat next_byte + 1)
    with (length pre + (pos + 1 + 1 + N.to_nat next_byte + 1)) by lia.
  rewrite slice_app_plus.
  destruct (Nat.ltb_spec (length c) (pos + 1 + 1 + N.to_nat next_byte + 1));
    destruct (Nat.ltb_spec (length pre + length c)
                (length pre + (pos + 1 + 1 + N.to_nat next_byte + 1)));
    try lia; [done|].
  eapply IH; [|reflexivity]. lia.
Qed.

(** What the loop has collected before is handed through. *)
Lemma decode_from_acc c pos before out :
  decode_from self c pos (before ++ out)
  = match decode_from self c pos out with
    | Returns output => Returns (before ++ output)
    | Raises e => Raises e
    | OutOfFuel => OutOfFuel
    end.
Proof.
  remember (length c - pos) as n eqn:Hn.
  revert pos out Hn. induction (lt_wf n) as [n _ IH]. intros pos out ->.
  rewrite (decode_from_eq self c pos (before ++ out)),
    (decode_from_eq self c pos out).
  destruct (Nat.ltb_spec pos (length c)) as [Hlt|Hge]; [|done].
  destruct (c !! pos) as [ch|]; [|done].
  destruct (ch <? 254)%N.
  { destruct (DECODE self !! N.to_nat ch); [|done].
    rewrite <- app_assoc. eapply IH; [|reflexivity]. lia. }
  destruct (c !! (pos + 1)) as [next_byte|]; [|done].
  destruct (ch =? 254)%N.
  { rewrite <- app_assoc. eapply IH; [|reflexivity]. lia. }
  cbv zeta.
  destruct (Nat.ltb_spec (length c) (pos + 1 + 1 + N.to_nat next_byte + 1));
    [done|].
  rewrite <- app_assoc. eapply IH; [|reflexivity]. lia.
Qed.

(** A stream that is accepted is walked through in the same way when more
    follows it. *)
Lemma decode_from_prefix pre rest pos out out' :
  pos <= length pre ->
  decode_from self pre pos out = Returns out' ->
  decode_from self (pre ++ rest) pos out
  = decode_from self (pre ++ rest) (length pre) out'.
Proof.
  remember (length pre - pos) as n eqn:Hn.
  revert pos out Hn. induction (lt_wf n) as [n _ IH]. intros pos out -> Hpos.
  rewrite (decode_from_eq self pre pos out).
  destruct (Nat.ltb_spec pos (length pre)) as [Hlt|Hge].
  2:{ intros [= <-]. by replace pos with (length pre) by lia. }
  rewrite (decode_from_eq self (pre ++ rest) pos out), length_app.
  destruct (Nat.ltb_spec pos (length pre + length rest)); [|lia].
  rewrite lookup_app_l by done.
  destruct (pre !! pos) as [ch|]; [|done].
  destruct (ch <? 254)%N.
  { destruct (DECODE self !! N.to_nat ch); [|done].
    intros Hrun. eapply IH; [|reflexivity| |done]; lia. }
  destruct (pre !! (pos + 1)) as [next_byte|] eqn:Hnext; [|done].
  pose proof (lookup_lt_Some _ _ _ Hnext) as Hlt2.
  rewrite lookup_app_l, Hnext by done.
  destruct (ch =? 254)%N.
  { intros Hrun. eapply IH; [|reflexivity| |done]; lia. }
  cbv zeta.
  destruct (Nat.ltb_spec (length pre) (pos + 1 + 1 + N.to_nat next_byte + 1))
    as [|Hend]; [done|].
  destruct (Nat.ltb_spec (length pre + length rest)
              (pos + 1 + 1 + N.to_nat next_byte + 1)); [lia|].
  unfold slice at 2. rewrite drop_app_le, take_app_le
    by (rewrite ?length_drop; lia).
  intros Hrun. eapply IH; [|reflexivity| |done]; lia.
Qed.

Lemma decompress_app c1 c2 t1 :
  decompress self c1 = Returns t1 ->
  decompress self (c1 ++ c2)
  = match decompress self c2 with
    | Returns t2 => Returns (t1 ++ t2)
    | Raises e => Raises e
    | OutOfFuel => OutOfFuel
    end.
Proof.
  rewrite !decompress_eq.
  destruct (decode_from self c1 0 []) as [out1| |] eqn:Hrun; [|done..].
  intros [= <-].
  rewrite (decode_from_prefix c1 c2 0 [] out1) by (done || lia).
  rewrite <- (Nat.add_0_r (length c1)), decode_from_shift.
  rewrite <- (app_nil_r out1) at 1. rewrite decode_from_acc.
  destruct (decode_from self c2 0 []) as [out2| |]; [|done..].
  by rewrite concat_app.
Qed.

End Concatenation.

(** X1.  Streams compose.  When [decompress] accepts a stream [c1], the
    stream [c1 ++ c2] is decoded as [c1] followed by [c2]: the text of [c1]
    followed by the text of [c2] when [c2] is accepted, and the error of
    [c2], with the same cause, when it is rejected. *)
Theorem decompress_concatenation self c1 c2 t1 :
  decompress self c1 = Returns t1 ->
  (forall t2, decompress self c2 = Returns t2 ->
     decompress self (c1 ++ c2) = Returns (t1 ++ t2)) /\
  (forall e, decompress self c2 = Raises e ->
     decompress self (c1 ++ c2) = Raises e).
Proof.
  intros H1. rewrite (decompress_app self c1 c2 t1 H1).
  split; by intros ? ->.
Qed.

Lemma decompress_concatenation_witness :
  decompress Smaz.instance [1%N] = Returns (s "the") /\
  (forall t2, decompress Smaz.instance [0; 254; 88]%N = Returns t2 ->
     decompress Smaz.instance ([1%N] ++ [0; 254; 88]%N)
     = Returns (s "the" ++ t2)) /\
  (forall e, decompress Smaz.instance [0; 254; 88]%N = Raises e ->
     decompress Smaz.instance ([1%N] ++ [0; 254; 88]%N) = Raises e).
Proof.
  assert (H1 : decompress Smaz.instance [1%N] = Returns (s "the"))
    by (by vm_compute).
  split; [done|].
  exact (decompress_concatenation Smaz.instance [1%N] [0; 254; 88]%N
           (s "the") H1).
Defined.

(** ** How far a text can shrink and a stream can grow *)

Lemma concat_snoc_length (out : list str) (piece : str) :
  length (concat (out ++ [piece])) = length (concat out) + length piece.
Proof. rewrite concat_app, length_app. cbn. by rewrite app_nil_r. Qed.

Lemma emitted_text_length self tk :
  emitted self tk -> length (text_of self tk) <= 7 * length (wire tk).
Proof.
  destruct tk as [i|b|data]; cbn [emitted text_of].
  - intros (sub & _ & -> & _ & Hlen). cbn. lia.
  - intros _. cbn. lia.
  - intros Hlen. unfold wire. rewrite length_app. cbn. lia.
Qed.

Lemma emitted_text_length_all self tokens :
  Forall (emitted self) tokens ->
  length (text_of_all self tokens) <= 7 * length (wire_all tokens).
Proof.
  induction 1 as [|tk tokens Htk _ IH]; [done|].
  change (text_of_all self (tk :: tokens))
    with (text_of self tk ++ text_of_all self tokens).
  rewrite wire_all_cons, !length_app.
  apply emitted_text_length in Htk. lia.
Qed.

Lemma flush_tokens_wire_length (buffer : list char) :
  length buffer <= length (wire_all (flush_tokens buffer)).
Proof.
  destruct buffer as [|b0 [|b1 buffer]]; [done|cbn; lia|].
  cbn [flush_tokens]. rewrite wire_all_singleton. unfold wire.
  rewrite length_app. cbn. lia.
Qed.

(** Whatever [_lookup] holds, the loop returns, and what it has written is
    at least one seventh of what it has read past the buffer. *)
Lemma compress_loop_length self text fuel pos verbatim output :
  length text - pos <= fuel -> pos <= length text ->
  pos <= length verbatim + 7 * length (concat output) ->
  exists verbatim' output',
    compress_loop self fuel text (length text) pos verbatim output
    = Returns (verbatim', output') /\
    length text <= length verbatim' + 7 * length (concat output').
Proof.
  revert pos verbatim output.
  induction fuel as [|fuel IH]; intros pos verbatim output Hfuel Hpos Hlen.
  { exists verbatim, output. cbn [compress_loop].
    destruct (Nat.ltb_spec pos (length text)); [lia|]. split; [done|lia]. }
  cbn [compress_loop].
  destruct (Nat.ltb_spec pos (length text)) as [Hlt|Hge];
    [|exists verbatim, output; split; [done|lia]].
  pose proof (find_match_spec self text pos (min 7 (length text - pos)))
    as Hfind.
  destruct (find_match self text pos (min 7 (length text - pos)))
    as [best_match best_len].
  destruct (truthy best_match) eqn:Htruthy.
  - destruct best_match as [[|c code]|]; [done| |done].
    destruct Hfind as (Hbest & _ & _).
    destruct (flush_spec verbatim output) as (output1 & -> & Hout1).
    cbn [default]. apply IH; [lia|lia|].
    pose proof (flush_tokens_wire_length verbatim).
    rewrite concat_app, length_app, Hout1, length_app. cbn [concat length id].
    rewrite length_app. cbn [length]. lia.
  - clear Hfind Htruthy.
    destruct (lookup_lt_is_Some_2 text pos Hlt) as [ch Hch]. rewrite Hch.
    cbv zeta. rewrite length_app. cbn [length].
    destruct (Nat.eqb_spec (length verbatim + 1) 255) as [Hfull|Hroom].
    + destruct (flush_spec (verbatim ++ [ch]) output) as (output1 & -> & Hout1).
      apply IH; [lia|lia|].
      pose proof (flush_tokens_wire_length (verbatim ++ [ch])) as Hw.
      rewrite length_app in Hw. cbn [length] in Hw.
      rewrite Hout1, length_app. lia.
    + apply IH; [lia|lia|]. rewrite length_app. cbn [length]. lia.
Qed.

Lemma compress_body_length self text :
  exists c, compress_body self text = Returns c /\ length text <= 7 * length c.
Proof.
  unfold compress_body, compress_tokens.
  destruct (compress_loop_length self text (length text) 0 [] [])
    as (verbatim & output & -> & Hlen); [lia|lia|cbn; lia|].
  cbn [mbind outcome_bind mret outcome_ret].
  destruct (flush_spec verbatim output) as (output1 & -> & Hout1).
  cbn [mbind outcome_bind mret outcome_ret].
  destruct (_ <? _).
  - exists (_encapsulate text). split; [done|].
    destruct (encapsulate_spec self text) as (tokens & -> & Htext & Hem & _).
    rewrite <- Htext at 1. by apply emitted_text_length_all.
  - exists (concat output1). split; [done|].
    pose proof (flush_tokens_wire_length verbatim).
    rewrite Hout1, length_app. lia.
Qed.

(** X2.  A text shrinks to one seventh at best.  The stream that [compress]
    returns for a text has at least one seventh of the characters of the
    text, whatever the table and whatever [_lookup] holds; so only the empty
    text gives the empty stream.  This is so for every instance of either
    class, in particular for the instance that [Smaz] or [SmazMultilang]
    builds from any table, of any length. *)
Theorem compression_at_most_sevenfold :
  (forall self text check_ascii,
     accepted check_ascii text ->
     exists c, Smaz.compress self text check_ascii = Returns c /\
               length text <= 7 * length c) /\
  (forall self text check_ascii,
     accepted check_ascii text ->
     exists c, SmazMultilang.compress self text check_ascii = Returns c /\
               length text <= 7 * length c) /\
  (forall D text check_ascii,
     accepted check_ascii text ->
     exists c, Smaz.compress (Smaz.init D) text check_ascii = Returns c /\
               length text <= 7 * length c) /\
  (forall D text check_ascii,
     accepted check_ascii text ->
     exists c,
       SmazMultilang.compress (SmazMultilang.init D) text check_ascii
       = Returns c /\
       length text <= 7 * length c).
Proof.
  split_and!.
  - intros self text check_ascii Hacc.
    rewrite Smaz_compress_accepted by done. apply compress_body_length.
  - intros self text check_ascii Hacc.
    rewrite Multilang_compress_accepted by done. apply compress_body_length.
  - intros D text check_ascii Hacc.
    rewrite Smaz_compress_accepted by done. apply compress_body_length.
  - intros D text check_ascii Hacc.
    rewrite Multilang_compress_accepted by done. apply compress_body_length.
Qed.

Lemma compression_at_most_sevenfold_witness :
  accepted true (s "http://the") /\
  exists c, Smaz.compress (Smaz.init (Smaz.DECODE ++ [s "the"; s "http://"]))
              (s "http://the") true = Returns c /\
            length (s "http://the") <= 7 * length c.
Proof.
  assert (Hacc : accepted true (s "http://the"))
    by (intros _; repeat constructor).
  split; [done|].
  destruct compression_at_most_sevenfold as (_ & _ & Htable & _).
  exact (Htable (Smaz.DECODE ++ [s "the"; s "http://"]) (s "http://the") true
           Hacc).
Defined.

Section Expansion.

Variable self : codec.
Variable m : nat.
Hypothesis Hm : 1 <= m.
Hypothesis Hentries : Forall (fun entry : str => length entry <= m) (take 254 (DECODE self)).

Lemma decode_from_length c pos out out' :
  pos <= length c ->
  decode_from self c pos out = Returns out' ->
  length (concat out') + m * pos <= length (concat out) + m * length c.
Proof.
  remember (length c - pos) as n eqn:Hn.
  revert pos out Hn. induction (lt_wf n) as [n _ IH]. intros pos out -> Hpos.
  rewrite decode_from_eq.
  destruct (Nat.ltb_spec pos (length c)) as [Hlt|Hge].
  2:{ intros [= <-]. replace pos with (length c) by lia. lia. }
  destruct (c !! pos) as [ch|]; [|done].
  destruct (N.ltb_spec ch 254) as [Hidx|Hesc].
  { destruct (DECODE self !! N.to_nat ch) as [entry|] eqn:Hentry; [|done].
    intros Hrun.
    apply (IH (length c - (pos + 1)) ltac:(lia) _ _ eq_refl ltac:(lia)) in Hrun.
    rewrite concat_snoc_length in Hrun.
    assert (length entry <= m).
    { rewrite Forall_lookup in Hentries.
      apply (Hentries (N.to_nat ch)). rewrite lookup_take_lt by lia. done. }
    lia. }
  destruct (c !! (pos + 1)) as [next_byte|] eqn:Hnext; [|done].
  pose proof (lookup_lt_Some _ _ _ Hnext) as Hlt2.
  destruct (ch =? 254)%N.
  { intros Hrun.
    apply (IH (length c - (pos + 1 + 1)) ltac:(lia) _ _ eq_refl ltac:(lia))
      in Hrun.
    rewrite concat_snoc_length in Hrun. cbn [length] in Hrun. lia. }
  cbv zeta.
  destruct (Nat.ltb_spec (length c) (pos + 1 + 1 + N.to_nat next_byte + 1))
    as [|Hend]; [done|].
  intros Hrun.
  apply (IH (length c - (pos + 1 + 1 + N.to_nat next_byte + 1)) ltac:(lia)
           _ _ eq_refl ltac:(lia)) in Hrun.
  rewrite concat_snoc_length, slice_length in Hrun.
  assert (N.to_nat next_byte <= m * N.to_nat next_byte) by nia.
  lia.
Qed.

Lemma decompress_length c t :
  decompress self c = Returns t -> length t <= m * length c.
Proof.
  rewrite decompress_eq.
  destruct (decode_from self c 0 []) as [output| |] eqn:Hrun; [|done..].
  intros [= <-]. apply decode_from_length in Hrun; [|lia].
  cbn in Hrun. lia.
Qed.

End Expansion.

(** X3.  A stream grows by a bounded factor.  When no entry among the first
    254 of the table is longer than [m] characters ([m] at least 1), the text
    that [decompress] returns has at most [m] times the characters of the
    stream.  The factor is 7 for the table of [Smaz] and 8 for the table of
    [SmazMultilang]. *)
Theorem decompression_expansion_bound :
  (forall self m c t,
     1 <= m ->
     Forall (fun entry : str => length entry <= m) (take 254 (DECODE self)) ->
     decompress self c = Returns t ->
     length t <= m * length c) /\
  (forall c t,
     decompress Smaz.instance c = Returns t -> length t <= 7 * length c) /\
  (forall c t,
     decompress SmazMultilang.instance c = Returns t ->
     length t <= 8 * length c).
Proof.
  split_and!.
  - intros self m c t Hm Hentries. by apply decompress_length.
  - intros c t. apply decompress_length; [lia|].
    apply (bool_decide_unpack _). by vm_compute.
  - intros c t. apply decompress_length; [lia|].
    apply (bool_decide_unpack _). by vm_compute.
Qed.

Lemma decompression_expansion_bound_witness :
  decompress Smaz.instance [67; 254; 88]%N = Returns (s "http://X") /\
  length (s "http://X") <= 7 * length [67; 254; 88]%N.
Proof.
  assert (Hc : decompress Smaz.instance [67; 254; 88]%N
               = Returns (s "http://X")) by (by vm_compute).
  split; [done|].
  exact (proj1 (proj2 decompression_expansion_bound) _ _ Hc).
Defined.

(** ** Entries of the table *)

Section Lookup_complete.

Implicit Types (l : list str) (lookup : gmap str str) (sub code : str).

Lemma lookup_loop_keeps l k lookup sub :
  is_Some (lookup !! sub) ->
  is_Some (SmazMultilang.create_lookup_loop (zip (seq k (length l)) l) lookup
           !! sub).
Proof.
  revert k lookup. induction l as [|x l IH]; intros k lookup Hin; [done|].
  rewrite lookup_loop_step. destruct (Nat.leb_spec 254 k); [done|].
  apply IH. rewrite lookup_insert. by case_decide.
Qed.

(** Every entry below the cutoff is a key; its value is an index, the same
    or a later one, at which the table holds the same string. *)
Lemma lookup_loop_complete l k lookup sub j :
  l !! j = Some sub -> k + j < 254 ->
  exists j', j <= j' /\ k + j' < 254 /\ l !! j' = Some sub /\
    SmazMultilang.create_lookup_loop (zip (seq k (length l)) l) lookup !! sub
    = Some [chr (k + j')].
Proof.
  revert k lookup j. induction l as [|x l IH]; intros k lookup j Hj Hk; [done|].
  rewrite lookup_loop_step. destruct (Nat.leb_spec 254 k); [lia|].
  destruct j as [|j]; simplify_eq/=.
  - destruct (lookup_loop_keeps l (S k) (<[sub:=[chr k]]> lookup) sub)
      as [code Hcode]; [by rewrite lookup_insert_eq|].
    rewrite Hcode.
    apply lookup_loop_sound in Hcode as [Hold | (j2 & -> & Hj2 & Hsub)].
    + rewrite lookup_insert_eq in Hold. simplify_eq.
      exists 0. rewrite Nat.add_0_r. split_and!; [lia|lia|done|done].
    + exists (S j2). replace (k + S j2) with (S k + j2) by lia.
      split_and!; [lia|lia|done|done].
  - destruct (IH (S k) (<[x:=[chr k]]> lookup) j Hj) as (j' & ? & ? & ? & Hin);
      [lia|].
    exists (S j'). replace (k + S j') with (S k + j') by lia.
    split_and!; [lia|lia|done|done].
Qed.

Lemma Multilang_lookup_complete D i sub :
  D !! i = Some sub -> i < 254 ->
  exists j, i <= j < 254 /\ D !! j = Some sub /\
    _lookup (SmazMultilang.init D) !! sub = Some [chr j].
Proof.
  intros Hi Hlt.
  destruct (lookup_loop_complete D 0 ∅ sub i Hi) as (j & ? & ? & ? & Hin);
    [lia|].
  exists j. split_and!; [lia|lia|done|done].
Qed.

End Lookup_complete.

Section One_byte.

Variable self : codec.

Lemma find_match_hit text pos match_len code :
  1 <= match_len ->
  _lookup self !! slice text pos (pos + match_len) = Some code ->
  find_match self text pos match_len = (Some code, match_len).
Proof.
  intros Hlen Hin. destruct match_len as [|n]; [lia|].
  cbn [find_match]. by rewrite Hin.
Qed.

Lemma worst_size_ge n : n <= _worst_size n.
Proof.
  unfold _worst_size.
  destruct (Nat.eqb_spec n 0); [lia|]. destruct (Nat.eqb_spec n 1); lia.
Qed.

(** A text that is itself a key, of at most seven characters, becomes the
    one character that [_lookup] holds for it. *)
Lemma compress_body_key sub ch :
  _lookup self !! sub = Some [ch] -> 1 <= length sub <= 7 ->
  compress_body self sub = Returns [ch].
Proof.
  intros Hin Hlen. unfold compress_body, compress_tokens.
  destruct (length sub) as [|n] eqn:Hn; [lia|].
  cbn [compress_loop]. change (0 <? S n) with true. cbv iota.
  rewrite (find_match_hit sub 0 (min 7 (S n - 0)) [ch]).
  2:{ lia. }
  2:{ replace (0 + min 7 (S n - 0)) with (length sub) by lia.
      by rewrite slice_all. }
  cbn [truthy _flush_verbatim default app].
  replace (0 + min 7 (S n - 0)) with (S n) by lia.
  assert (Hend : forall fuel, compress_loop self fuel sub (S n) (S n) [] [[ch]]
                              = Returns ([], [[ch]])).
  { intros [|fuel]; cbn [compress_loop]; by rewrite Nat.ltb_irrefl. }
  rewrite Hend. cbn [mbind outcome_bind mret outcome_ret _flush_verbatim concat app length].
  pose proof (worst_size_ge (S n)).
  destruct (Nat.ltb_spec (_worst_size (S n)) 1); [lia|done].
Qed.

End One_byte.

(** X4.  An entry becomes one byte.  When the table holds a string of one to
    seven characters at an index below 254, [compress] of that string returns
    a single character: the index of the string, or a later index that holds
    the same string; [decompress] of that character returns the string. *)
Theorem entry_is_one_byte :
  (forall D i sub check_ascii,
     D !! i = Some sub -> i < 254 -> 1 <= length sub <= 7 ->
     accepted check_ascii sub ->
     exists j, i <= j < 254 /\ D !! j = Some sub /\
       SmazMultilang.compress (SmazMultilang.init D) sub check_ascii
       = Returns [chr j] /\
       decompress (SmazMultilang.init D) [chr j] = Returns sub) /\
  (forall D i sub check_ascii,
     length D <= 254 ->
     D !! i = Some sub -> 1 <= length sub <= 7 ->
     accepted check_ascii sub ->
     exists j, i <= j < 254 /\ D !! j = Some sub /\
       Smaz.compress (Smaz.init D) sub check_ascii = Returns [chr j] /\
       decompress (Smaz.init D) [chr j] = Returns sub).
Proof.
  split.
  - intros D i sub check_ascii Hi Hlt Hlen Hacc.
    destruct (Multilang_lookup_complete D i sub Hi Hlt) as (j & Hj & Hsub & Hin).
    exists j. split_and!; [lia|lia|done|..].
    + rewrite Multilang_compress_accepted by done.
      by apply compress_body_key.
    + apply decompress_entry; [lia|done].
  - intros D i sub check_ascii HD Hi Hlen Hacc.
    pose proof (lookup_lt_Some _ _ _ Hi) as Hlt.
    destruct (Multilang_lookup_complete D i sub Hi) as (j & Hj & Hsub & Hin);
      [lia|].
    exists j. split_and!; [lia|lia|done|..].
    + rewrite Smaz_compress_accepted by done.
      apply compress_body_key; [|done].
      cbn [_lookup Smaz.init]. by rewrite Smaz_lookup_guarded.
    + apply decompress_entry; [lia|done].
Qed.

Lemma entry_is_one_byte_witness :
  length Smaz.DECODE <= 254 /\
  Smaz.DECODE !! 67 = Some (s "http://") /\
  1 <= length (s "http://") <= 7 /\
  accepted true (s "http://") /\
  exists j, 67 <= j < 254 /\ Smaz.DECODE !! j = Some (s "http://") /\
    Smaz.compress (Smaz.init Smaz.DECODE) (s "http://") true
    = Returns [chr j] /\
    decompress (Smaz.init Smaz.DECODE) [chr j] = Returns (s "http://").
Proof.
  assert (HD : length Smaz.DECODE <= 254) by (vm_compute; lia).
  assert (Hi : Smaz.DECODE !! 67 = Some (s "http://")) by (by vm_compute).
  assert (Hlen : 1 <= length (s "http://") <= 7) by (vm_compute; lia).
  assert (Hacc : accepted true (s "http://"))
    by (intros _; repeat constructor).
  do 4 (split; [done|]).
  exact (proj2 entry_is_one_byte Smaz.DECODE 67 (s "http://") true
           HD Hi Hlen Hacc).
Defined.

(** ** The characters of a stream *)

Lemma wire_all_chars self (P : N -> Prop) tokens :
  (forall ch, (ch <= 255)%N -> P ch) ->
  Forall (emitted self) tokens ->
  Forall P (text_of_all self tokens) ->
  Forall P (wire_all tokens).
Proof.
  intros Hbyte Hem. induction Hem as [|tk tokens Htk _ IH]; [done|].
  change (text_of_all self (tk :: tokens))
    with (text_of self tk ++ text_of_all self tokens).
  rewrite wire_all_cons, !Forall_app. intros [Htext Hrest].
  split; [|by apply IH]. unfold wire. rewrite Forall_app. split.
  - eapply Forall_impl; [by apply (emitted_controls self)|]. apply Hbyte.
  - destruct tk as [i|b|data]; [constructor|done|done].
Qed.

(** X5.  Bytes in, bytes out.  Every character of the stream that
    [compress] returns is at most 255 or is a character of the text; so the
    stream of a text of bytes is a stream of bytes. *)
Theorem bytes_in_bytes_out :
  (forall D text check_ascii,
     length D <= 254 -> accepted check_ascii text ->
     exists c, Smaz.compress (Smaz.init D) text check_ascii = Returns c /\
               Forall (fun ch => (ch <= 255)%N \/ ch ∈ text) c /\
               (bytes text -> bytes c)) /\
  (forall D text check_ascii,
     accepted check_ascii text ->
     exists c,
       SmazMultilang.compress (SmazMultilang.init D) text check_ascii
       = Returns c /\
       Forall (fun ch => (ch <= 255)%N \/ ch ∈ text) c /\
       (bytes text -> bytes c)).
Proof.
  split.
  - intros D text check_ascii HD Hacc.
    destruct (Smaz_compress_spec D text check_ascii HD Hacc)
      as (tokens & Hc & Hem & Htext & _).
    exists (wire_all tokens). split_and!; [done|..].
    + eapply wire_all_chars; [by left|done|].
      rewrite Htext. apply Forall_forall. by right.
    + intros Hbytes. eapply wire_all_chars; [done|done|]. by rewrite Htext.
  - intros D text check_ascii Hacc.
    destruct (Multilang_compress_spec D text check_ascii Hacc)
      as (tokens & Hc & Hem & Htext & _).
    exists (wire_all tokens). split_and!; [done|..].
    + eapply wire_all_chars; [by left|done|].
      rewrite Htext. apply Forall_forall. by right.
    + intros Hbytes. eapply wire_all_chars; [done|done|]. by rewrite Htext.
Qed.

Lemma bytes_in_bytes_out_witness :
  length Smaz.DECODE <= 254 /\ accepted false [233; 88; 116]%N /\
  exists c, Smaz.compress (Smaz.init Smaz.DECODE) [233; 88; 116]%N false
            = Returns c /\
            Forall (fun ch => (ch <= 255)%N \/ ch ∈ [233; 88; 116]%N) c /\
            (bytes [233; 88; 116]%N -> bytes c).
Proof.
  assert (HD : length Smaz.DECODE <= 254) by (vm_compute; lia).
  assert (Hacc : accepted false [233; 88; 116]%N) by (by intros ?).
  do 2 (split; [done|]).
  exact (proj1 bytes_in_bytes_out Smaz.DECODE [233; 88; 116]%N false HD Hacc).
Defined.

(** ** The bound as a function of the length *)

(** X6.  The bound grows with the length.  [_worst_size] is at least the
    length, exceeds it by at most two characters per 255 and two more, and
    is monotone: a bound computed for a longer text also covers every shorter
    one. *)
Theorem worst_size_monotone n m :
  n <= m ->
  _worst_size n <= _worst_size m /\
  n <= _worst_size n <= n + 2 * (n / 255) + 2.
Proof.
  intros Hnm. split.
  - destruct (decide (n = 0)) as [->|]; [cbn; lia|].
    destruct (decide (n = 1)) as [->|].
    { destruct (decide (m = 1)) as [->|]; [done|].
      rewrite (worst_size_chunks m) by lia. change (_worst_size 1) with 2.
      lia. }
    rewrite (worst_size_chunks n), (worst_size_chunks m) by lia.
    div255 (n + 254). div255 (m + 254). lia.
  - split; [apply worst_size_ge|].
    unfold _worst_size.
    destruct (Nat.eqb_spec n 0); [lia|]. destruct (Nat.eqb_spec n 1); [lia|].
    cbv zeta. destruct (0 <? n mod 255); lia.
Qed.

Lemma worst_size_monotone_witness :
  255 <= 256 /\
  _worst_size 255 <= _worst_size 256 /\
  255 <= _worst_size 255 <= 255 + 2 * (255 / 255) + 2.
Proof.
  assert (Hnm : 255 <= 256) by lia.
  split; [done|].
  exact (worst_size_monotone 255 256 Hnm).
Defined.

(** ** Texts without any match *)

Section Matchless.

Variable self : codec.

Implicit Types (text : str) (output : list str).

Lemma flush_tokens_chunk (chunk : str) :
  1 <= length chunk -> flush_tokens chunk = [chunk_token chunk].
Proof. destruct chunk as [|b0 [|b1 chunk]]; cbn; [lia|done|done]. Qed.

Lemma loop_at_end fuel text verbatim output :
  compress_loop self fuel text (length text) (length text) verbatim output
  = Returns (verbatim, output).
Proof. destruct fuel; cbn [compress_loop]; by rewrite Nat.ltb_irrefl. Qed.

(** From an empty buffer, the loop and the last flush write the chunks of
    what is left of the text, as [_encapsulate] does. *)
Lemma matchless_chunks text m :
  matchless self text ->
  forall fuel pos output,
    pos <= length text -> length text - pos <= fuel ->
    length text - pos <= 255 * m -> 255 * m < length text - pos + 255 ->
    exists verbatim output',
      compress_loop self fuel text (length text) pos [] output
      = Returns (verbatim, output') /\
      concat (_flush_verbatim verbatim output').2
      = concat output
        ++ wire_all (chunk_tokens (drop pos text)
                       ((fun k => k * 255) <$> seq 0 m)).
Proof.
  intros Hnone. induction m as [|m IH]; intros fuel pos output Hpos Hfuel Hle Hlt.
  { replace pos with (length text) by lia. rewrite loop_at_end.
    exists [], output. split; [done|]. cbn. by rewrite app_nil_r. }
  rewrite chunk_starts_S, wire_all_cons.
  destruct (decide (255 <= length text - pos)) as [Hfull|Hpart].
  - replace fuel with (254 + S (fuel - 255)) by lia.
    rewrite matchless_steps by (done || cbn; lia). cbn [app].
    destruct (lookup_lt_is_Some_2 text (pos + 254)) as [ch Hch]; [lia|].
    rewrite (full_buffer_step _ _ _ _ _ _ ch);
      [|lia|by apply matchless_find|done|rewrite slice_length; lia].
    rewrite slice_snoc by (lia || done).
    replace (pos + 254 + 1) with (pos + 255) by lia.
    destruct (IH (fuel - 255) (pos + 255)
                (output ++ [[255%N; 254%N]; slice text pos (pos + 255)]))
      as (verbatim & output' & -> & Hout); [lia..|].
    exists verbatim, output'. split; [done|].
    rewrite Hout, concat_app, drop_drop, <- app_assoc. do 2 f_equal.
    { rewrite chunk_token_wire. unfold slice.
      replace (pos + 255 - pos) with 255 by lia.
      rewrite length_take, length_drop.
      replace (min 255 (length text - pos)) with 255 by lia.
      cbn. by rewrite app_nil_r. }
  - assert (m = 0) as -> by lia.
    replace fuel with ((length text - pos) + (fuel - (length text - pos)))
      by lia.
    rewrite matchless_steps by (done || cbn; lia). cbn [app].
    replace (pos + (length text - pos)) with (length text) by lia.
    rewrite loop_at_end. eexists _, _. split; [done|].
    destruct (flush_spec (slice text pos (length text)) output)
      as (output1 & Hflush & Hout1).
    rewrite Hflush. cbn [snd]. rewrite Hout1. f_equal.
    rewrite flush_tokens_chunk by (rewrite slice_length; lia).
    rewrite wire_all_singleton. cbn [seq fmap list_fmap chunk_tokens].
    unfold wire_all. cbn [fmap list_fmap concat]. rewrite app_nil_r.
    do 2 f_equal. unfold slice.
    rewrite (take_ge (drop pos text) 255) by (rewrite length_drop; lia).
    apply take_ge. rewrite length_drop. lia.
Qed.

Lemma matchless_tokens text :
  matchless self text ->
  exists output,
    compress_tokens self text = Returns output /\
    concat output = _encapsulate text.
Proof.
  intros Hnone. destruct text as [|b0 text]; [by exists []|].
  set (full := b0 :: text). unfold compress_tokens.
  div255 (length full + 255 - 1).
  destruct (matchless_chunks full ((length full + 255 - 1) / 255) Hnone
              (length full) 0 []) as (verbatim & output & -> & Hout);
    [lia..|].
  cbn [mbind outcome_bind].
  destruct (_flush_verbatim verbatim output) as [verbatim' output'].
  exists output'. split; [done|].
  cbn [snd concat app] in Hout. rewrite Hout, drop_0.
  change (_encapsulate full)
    with (concat (encapsulate_loop full (range_step (length full) 255) [])).
  by rewrite encapsulate_loop_wire.
Qed.

Lemma matchless_body text :
  matchless self text -> compress_body self text = Returns (_encapsulate text).
Proof.
  intros Hnone. unfold compress_body.
  destruct (matchless_tokens text Hnone) as (output & -> & Hout).
  cbn [mbind outcome_bind mret outcome_ret]. rewrite Hout.
  by destruct (_ <? _).
Qed.

End Matchless.

(** X7.  Without a match the stream is the encapsulated text.  For a text in
    which no window of one to seven characters is a key of [_lookup], the
    greedy loop writes exactly what [_encapsulate] writes, so [compress]
    returns the encapsulated text whichever way the size check goes.  With
    an empty table this is so for every text. *)
Theorem matchless_is_encapsulated :
  (forall self text check_ascii,
     matchless self text -> accepted check_ascii text ->
     Smaz.compress self text check_ascii = Returns (_encapsulate text) /\
     SmazMultilang.compress self text check_ascii
     = Returns (_encapsulate text)) /\
  (forall text,
     Smaz.compress (Smaz.init []) text false = Returns (_encapsulate text) /\
     SmazMultilang.compress (SmazMultilang.init []) text false
     = Returns (_encapsulate text)).
Proof.
  split.
  - intros self text check_ascii Hnone Hacc.
    rewrite Smaz_compress_accepted, Multilang_compress_accepted by done.
    split; by apply matchless_body.
  - intros text.
    rewrite Smaz_compress_accepted, Multilang_compress_accepted by done.
    split; by apply matchless_body.
Qed.

Lemma matchless_is_encapsulated_witness :
  matchless Smaz.instance (replicate 300 88%N) /\
  accepted true (replicate 300 88%N) /\
  Smaz.compress Smaz.instance (replicate 300 88%N) true
  = Returns (_encapsulate (replicate 300 88%N)).
Proof.
  assert (Hacc : accepted true (replicate 300 88%N)).
  { intros _. apply Forall_replicate. by vm_compute. }
  do 2 (split; [done || apply matchless_X|]).
  exact (proj1 (proj1 matchless_is_encapsulated Smaz.instance
                  (replicate 300 88%N) true matchless_X Hacc)).
Defined.

(** ** The shared instances and the module-level functions *)

Lemma Smaz_instance_round_trip text check_ascii :
  accepted check_ascii text ->
  exists c, Smaz.compress Smaz.instance text check_ascii = Returns c /\
            decompress Smaz.instance c = Returns text.
Proof.
  intros Hacc. rewrite Smaz_compress_accepted by done.
  apply round_trip_body, Smaz_lookup_sound. vm_compute. lia.
Qed.

Lemma Multilang_instance_round_trip text check_ascii :
  accepted check_ascii text ->
  exists c,
    SmazMultilang.compress SmazMultilang.instance text check_ascii = Returns c /\
    decompress SmazMultilang.instance c = Returns text.
Proof.
  intros Hacc. rewrite Multilang_compress_accepted by done.
  apply round_trip_body, Multilang_lookup_sound.
Qed.

(** X8.  One shared instance per module.  [get_instance] creates the
    instance when the global is [None] and returns the one it holds
    otherwise, so a second call returns the same instance and leaves the
    global as it is.  Whether or not the instance exists yet, the
    module-level [compress] gives what the method of the instance gives and
    leaves the instance in the global, and the module-level [decompress]
    of that result returns the text. *)
Theorem shared_instance :
  (forall g,
     smaz_py.get_instance (smaz_py.get_instance g).2
     = smaz_py.get_instance g) /\
  (forall g text check_ascii,
     g = None \/ g = Some Smaz.instance ->
     smaz_py.compress g text check_ascii
     = (Smaz.compress Smaz.instance text check_ascii, Some Smaz.instance) /\
     (accepted check_ascii text ->
      exists c,
        smaz_py.compress g text check_ascii
        = (Returns c, Some Smaz.instance) /\
        smaz_py.decompress (smaz_py.compress g text check_ascii).2 c
        = (Returns text, Some Smaz.instance))) /\
  (forall g,
     smaz_multilang_py.get_instance (smaz_multilang_py.get_instance g).2
     = smaz_multilang_py.get_instance g) /\
  (forall g text check_ascii,
     g = None \/ g = Some SmazMultilang.instance ->
     smaz_multilang_py.compress g text check_ascii
     = (SmazMultilang.compress SmazMultilang.instance text check_ascii,
        Some SmazMultilang.instance) /\
     (accepted check_ascii text ->
      exists c,
        smaz_multilang_py.compress g text check_ascii
        = (Returns c, Some SmazMultilang.instance) /\
        smaz_multilang_py.decompress
          (smaz_multilang_py.compress g text check_ascii).2 c
        = (Returns text, Some SmazMultilang.instance))).
Proof.
  split_and!.
  - by intros [shared|].
  - intros g text check_ascii Hg.
    assert (Hc : smaz_py.compress g text check_ascii
                 = (Smaz.compress Smaz.instance text check_ascii,
                    Some Smaz.instance)) by (by destruct Hg as [-> | ->]).
    split; [done|]. intros Hacc. rewrite Hc.
    destruct (Smaz_instance_round_trip text check_ascii Hacc) as (c & -> & Hd).
    exists c. split; [done|]. cbn [snd].
    unfold smaz_py.decompress. cbn [smaz_py.get_instance]. by rewrite Hd.
  - by intros [shared|].
  - intros g text check_ascii Hg.
    assert (Hc : smaz_multilang_py.compress g text check_ascii
                 = (SmazMultilang.compress SmazMultilang.instance text
                      check_ascii, Some SmazMultilang.instance))
      by (by destruct Hg as [-> | ->]).
    split; [done|]. intros Hacc. rewrite Hc.
    destruct (Multilang_instance_round_trip text check_ascii Hacc)
      as (c & -> & Hd).
    exists c. split; [done|]. cbn [snd].
    unfold smaz_multilang_py.decompress.
    cbn [smaz_multilang_py.get_instance]. by rewrite Hd.
Qed.

Lemma shared_instance_witness :
  (@None codec = None \/ @None codec = Some Smaz.instance) /\
  accepted true (s "foobar") /\
  exists c,
    smaz_py.compress None (s "foobar") true = (Returns c, Some Smaz.instance) /\
    smaz_py.decompress (smaz_py.compress None (s "foobar") true).2 c
    = (Returns (s "foobar"), Some Smaz.instance).
Proof.
  assert (Hg : @None codec = None \/ @None codec = Some Smaz.instance)
    by (by left).
  assert (Hacc : accepted true (s "foobar")) by (intros _; repeat constructor).
  do 2 (split; [done|]).
  exact (proj2 (proj1 (proj2 shared_instance) None (s "foobar") true Hg) Hacc).
Defined.

(** ** The test loops *)

Lemma main_test_body_ok s :
  s <> [] -> ascii_text s ->
  exists c,
    Smaz.compress Smaz.instance s true = Returns c /\
    main_test.body s
    = Some [Original (length s) s; Comprimido (length c) c; Descomprimido s;
            Ratio (length c) (length s); Blank].
Proof.
  intros Hne Hascii.
  destruct (Smaz_instance_round_trip s true) as (c & Hc & Hd); [by intros _|].
  exists c. split; [done|]. unfold main_test.body.
  change main_test.SZ with Smaz.instance. rewrite Hc, Hd.
  destruct s as [|ch s]; [done|]. cbn [length Nat.eqb].
  by rewrite bool_decide_false by (by intros ?).
Qed.

Lemma main_test_loop_ok strings :
  Forall (fun s => s <> [] /\ ascii_text s) strings ->
  exists lines,
    main_test.loop strings = Some lines /\
    forallb quiet lines = true /\
    length lines = 5 * length strings.
Proof.
  induction 1 as [|s strings [Hne Hascii] _ (lines & Hloop & Hquiet & Hlen)].
  - by exists [].
  - destruct (main_test_body_ok s Hne Hascii) as (c & _ & Hbody).
    cbn [main_test.loop]. rewrite Hbody, Hloop. eexists. split; [done|].
    cbn [app forallb quiet andb length]. split; [done|]. lia.
Qed.

(** X9.  What [main_test.py] prints.  For a non-empty ASCII string the loop
    prints the original, the stream, the decompressed text, which is the
    original, the ratio and a blank line, and neither the [ERROR] line nor
    the [Error con cadena] line.  For a string with a character of 128 or
    more it prints only [Error con cadena] with the [ValueError] of
    [compress].  For the empty string it prints the first three lines and then
    [Error con cadena], because the ratio divides by the length.  The six
    strings of the script are non-empty ASCII, so the script prints thirty
    lines and none of the two. *)
Theorem main_test_report :
  (forall s,
     s <> [] -> ascii_text s ->
     exists c,
       Smaz.compress Smaz.instance s true = Returns c /\
       main_test.body s
       = Some [Original (length s) s; Comprimido (length c) c;
               Descomprimido s; Ratio (length c) (length s); Blank]) /\
  (forall s,
     ~ ascii_text s ->
     main_test.body s
     = Some [Error_con_cadena s
               (Codec_error (ValueError "SMAZ solo procesa texto ASCII"))]) /\
  main_test.body []
  = Some [Original 0 []; Comprimido 0 []; Descomprimido [];
          Error_con_cadena [] ZeroDivisionError] /\
  (forall strings,
     Forall (fun s => s <> [] /\ ascii_text s) strings ->
     exists lines,
       main_test.loop strings = Some lines /\
       forallb quiet lines = true /\
       length lines = 5 * length strings) /\
  (exists lines,
     main_test.main = Some lines /\ forallb quiet lines = true /\
     length lines = 30).
Proof.
  split_and!.
  - apply main_test_body_ok.
  - intros s Hnot. unfold main_test.body.
    change main_test.SZ with Smaz.instance.
    by rewrite Smaz_compress_rejected.
  - reflexivity.
  - apply main_test_loop_ok.
  - apply main_test_loop_ok.
    repeat (apply Forall_cons; split;
              [split; [done|apply (bool_decide_unpack _); by vm_compute]|]).
    apply Forall_nil_2.
Qed.

Lemma main_test_report_witness :
  Forall (fun s => s <> [] /\ ascii_text s) [s "foobar"; s "the end"] /\
  exists lines,
    main_test.loop [s "foobar"; s "the end"] = Some lines /\
    forallb quiet lines = true /\
    length lines = 5 * length [s "foobar"; s "the end"].
Proof.
  assert (Hall : Forall (fun s => s <> [] /\ ascii_text s)
                   [s "foobar"; s "the end"]).
  { repeat (apply Forall_cons; split;
              [split; [done|apply (bool_decide_unpack _); by vm_compute]|]).
    apply Forall_nil_2. }
  split; [done|].
  destruct main_test_report as (_ & _ & _ & Hloop & _).
  exact (Hloop [s "foobar"; s "the end"] Hall).
Defined.





(** ** The two classes on one table *)

Lemma lookup_loop_take (l : list str) (k : nat) (lookup : gmap str str) :
  SmazMultilang.create_lookup_loop (zip (seq k (length l)) l) lookup
  = SmazMultilang.create_lookup_loop
      (zip (seq k (length (take (254 - k) l))) (take (254 - k) l)) lookup.
Proof.
  revert k lookup. induction l as [|x l IH]; intros k lookup.
  - by rewrite take_nil.
  - rewrite lookup_loop_step. destruct (Nat.leb_spec 254 k) as [Hge|Hlt].
    + by replace (254 - k) with 0 by lia.
    + replace (254 - k) with (S (254 - S k)) by lia. cbn [take].
      rewrite lookup_loop_step. destruct (Nat.leb_spec 254 k); [lia|].
      apply IH.
Qed.

Lemma compress_lookup_only D D' lookup text check_ascii :
  Smaz.compress (Codec D lookup) text check_ascii
  = Smaz.compress (Codec D' lookup) text check_ascii /\
  SmazMultilang.compress (Codec D lookup) text check_ascii
  = SmazMultilang.compress (Codec D' lookup) text check_ascii.
Proof. split; reflexivity. Qed.

(** X11.  The two classes agree on a table.  Given the same table of at most
    254 entries, [Smaz] and [SmazMultilang] build the same instance, and on
    every text that the ASCII check lets through their [compress] methods
    return the same stream; [decompress] is one function for both. *)
Theorem classes_agree D text check_ascii :
  length D <= 254 ->
  Smaz.init D = SmazMultilang.init D /\
  (accepted check_ascii text ->
   Smaz.compress (Smaz.init D) text check_ascii
   = SmazMultilang.compress (SmazMultilang.init D) text check_ascii).
Proof.
  intros HD.
  assert (Hinit : Smaz.init D = SmazMultilang.init D).
  { unfold Smaz.init, SmazMultilang.init. by rewrite Smaz_lookup_guarded. }
  split; [done|]. intros Hacc.
  by rewrite Hinit, Smaz_compress_accepted, Multilang_compress_accepted.
Qed.

Lemma classes_agree_witness :
  length Smaz.DECODE <= 254 /\
  Smaz.init Smaz.DECODE = SmazMultilang.init Smaz.DECODE /\
  (accepted true (s "the end") ->
   Smaz.compress (Smaz.init Smaz.DECODE) (s "the end") true
   = SmazMultilang.compress (SmazMultilang.init Smaz.DECODE) (s "the end") true).
Proof.
  assert (HD : length Smaz.DECODE <= 254) by (vm_compute; lia).
  split; [done|].
  exact (classes_agree Smaz.DECODE (s "the end") true HD).
Defined.

(** X12.  Entries from index 254 on are ignored.  For [SmazMultilang] a
    table and its first 254 entries give the same [_lookup], the same result
    of [compress] on every text and the same result of [decompress] on every
    stream. *)
Theorem entries_beyond_cutoff_ignored D text check_ascii c :
  SmazMultilang._create_lookup D = SmazMultilang._create_lookup (take 254 D) /\
  SmazMultilang.compress (SmazMultilang.init D) text check_ascii
  = SmazMultilang.compress (SmazMultilang.init (take 254 D)) text check_ascii /\
  decompress (SmazMultilang.init D) c
  = decompress (SmazMultilang.init (take 254 D)) c.
Proof.
  assert (Hlookup : SmazMultilang._create_lookup D
                    = SmazMultilang._create_lookup (take 254 D)).
  { unfold SmazMultilang._create_lookup, enumerate.
    by rewrite (lookup_loop_take D 0 ∅). }
  split_and!; [done|..].
  - unfold SmazMultilang.init. rewrite <- Hlookup.
    apply compress_lookup_only.
  - apply decompress_ext. intros i Hi. cbn [DECODE SmazMultilang.init].
    by rewrite lookup_take_lt.
Qed.

(** ** What the decoder accepts beyond what the encoder writes *)

(** X13.  The decoder accepts every token it can parse.  The wire form of
    any tokens that are an index below 254 held by the table, a literal, or
    a run of 1 to 256 characters is accepted by [decompress], which returns
    the texts of the tokens in order.  This includes runs that [compress]
    never writes: a run of a single character and a run of 256. *)
Theorem decoder_accepts_tokens :
  (forall self tokens,
     Forall (decodable self) tokens ->
     decompress self (wire_all tokens) = Returns (text_of_all self tokens)) /\
  (forall self b,
     decompress self [255; 0; b]%N = Returns [b]) /\
  (forall self data,
     length data = 256 ->
     decompress self ([255; 255]%N ++ data) = Returns data).
Proof.
  split_and!.
  - apply decompress_decodable.
  - intros self b.
    apply (decompress_decodable self [Run [b]]).
    apply Forall_singleton. cbn. lia.
  - intros self data Hlen.
    pose proof (decompress_decodable self [Run data]) as Hdec.
    rewrite wire_all_singleton, text_of_all_singleton in Hdec.
    unfold wire in Hdec. cbn [controls payload text_of] in Hdec.
    rewrite Hlen in Hdec. apply Hdec, Forall_singleton. cbn. lia.
Qed.

Lemma decoder_accepts_tokens_witness :
  Forall (decodable Smaz.instance) [Run [88%N]; Entry 253; Literal 300%N] /\
  decompress Smaz.instance (wire_all [Run [88%N]; Entry 253; Literal 300%N])
  = Returns (text_of_all Smaz.instance [Run [88%N]; Entry 253; Literal 300%N]).
Proof.
  assert (Hall : Forall (decodable Smaz.instance)
                   [Run [88%N]; Entry 253; Literal 300%N]).
  { apply Forall_cons. split; [cbn; lia|].
    apply Forall_cons. split; [split; [lia|by exists (s ".com")]|].
    by apply Forall_singleton. }
  split; [done|].
  exact (proj1 decoder_accepts_tokens Smaz.instance _ Hall).
Defined.
